(** * Rocket.Chat to Slack migration: the export pipeline of
      [scripts/map_rc_to_slack.py]

    The script reads loosely typed documents (users, rooms, messages) and
    writes CSV and JSON files.  This development embeds the helper
    functions and the CSV and JSON phases, keeping the dynamic typing of
    the source: a document is a [value], every operation that Python can
    refuse returns a [result], and a dictionary keeps its insertion
    order.

    Conventions.
    - A Python [str] is a [string]; its characters are the code points
      below 256.
    - A Python [int] is a [Z]; [len] is [String.length] seen in [Z].
    - A [datetime] is the POSIX time, in microseconds, that its
      [timestamp()] denotes; the local time zone has a fixed offset, so
      this number also orders the datetimes as their comparison does.
    - A name is looked up in the namespace the script builds: the
      import statements and the top-level definitions.  The script reads
      [re], [csv], [tqdm] and [ASCENDING] but never binds them, so
      reading one of them raises [NameError]; [read_name] is that
      lookup.  The name [datetime] is bound by
      [from datetime import datetime], and [json] by [import json].
    - The document store is outside the model: a query is the list of
      the documents it returns.
    - Each part of the script is embedded as the fragment it is, started
      in the state named by its arguments: a helper function, the body
      of a loop, a loop with its header. *)

From Stdlib Require Import ZArith Ascii String DecimalString DecimalZ Lia.
From stdpp Require Import base option list gmap strings sorting.

Local Open Scope Z_scope.

(** ** Python values and outcomes *)

Module Py.

Inductive exn : Set :=
| KeyError
| TypeError
| AttributeError
| ZeroDivisionError
| NameError.

(** The outcome of evaluating an expression: a value, an exception, or
    [Unmodelled] for the few operations whose result the embedding does
    not compute: [str] of a container or of a datetime, the comparison
    of two lists, a document id that is not a string, an attribute the
    script never reads, the timestamp of a datetime too far from the
    epoch for a float to hold its microseconds.  No statement below
    rests on [Unmodelled]. *)
Inductive result (A : Type) : Type :=
| Ok (a : A)
| Raise (e : exn)
| Unmodelled.

Arguments Ok {A} a.
Arguments Raise {A} e.
Arguments Unmodelled {A}.

#[global] Instance result_ret : MRet result := fun A a => Ok a.
#[global] Instance result_bind : MBind result := fun A B f m =>
  match m with
  | Ok a => f a
  | Raise e => Raise e
  | Unmodelled => Unmodelled
  end.

(** A loop [for x in l: st = body(st, x)] that stops at the first
    exception. *)
Fixpoint foldM {S B} (body : S -> B -> result S) (st : S) (l : list B)
  : result S :=
  match l with
  | [] => Ok st
  | x :: l' => st' ← body st x; foldM body st' l'
  end.

Fixpoint mapM' {A B} (f : A -> result B) (l : list A) : result (list B) :=
  match l with
  | [] => Ok []
  | x :: l' => y ← f x; ys ← mapM' f l'; Ok (y :: ys)
  end.

#[warnings="-register-all"]
Inductive value : Type :=
| VNone
| VBool (b : bool)
| VInt (n : Z)
| VStr (s : string)
| VDate (us : Z)
| VList (items : list value)
| VDict (fields : list (string * value)).

(** [bool(v)] *)
Definition truthy (v : value) : bool :=
  match v with
  | VNone => false
  | VBool b => b
  | VInt n => negb (n =? 0)
  | VStr s => negb (String.eqb s EmptyString)
  | VDate _ => true
  | VList l => match l with [] => false | _ => true end
  | VDict d => match d with [] => false | _ => true end
  end.

(** ** Strings *)

Definition dquote : string := String "034"%char EmptyString.
Definition LF : string := String "010"%char EmptyString.
Definition CR : string := String "013"%char EmptyString.
Definition backslash : string := String "092"%char EmptyString.

Definition len (s : string) : Z := Z.of_nat (String.length s).

Fixpoint str_take (n : nat) (s : string) : string :=
  match n, s with
  | S n', String c s' => String c (str_take n' s')
  | _, _ => EmptyString
  end.

Fixpoint str_drop (n : nat) (s : string) : string :=
  match n, s with
  | S n', String _ s' => str_drop n' s'
  | _, _ => s
  end.

(** [s[start:stop]] with Python's treatment of negative and
    out-of-range bounds. *)
Definition clamp_index (i n : Z) : Z :=
  if i <? 0 then Z.max 0 (i + n) else Z.min i n.

Definition slice (s : string) (start stop : Z) : string :=
  let a := clamp_index start (len s) in
  let b := clamp_index stop (len s) in
  str_take (Z.to_nat (b - a)) (str_drop (Z.to_nat a) s).

(** [old in s], for strings *)
Fixpoint str_contains (old s : string) : bool :=
  String.prefix old s ||
  match s with
  | EmptyString => false
  | String _ s' => str_contains old s'
  end.

(** [s.replace(old, new)]: the occurrences of [old] are found from the
    left and do not overlap.  [skip] counts the characters of a replaced
    occurrence that are still to be passed over.  ([old] is never empty
    in the script.) *)
Fixpoint replace_from (old new : string) (skip : nat) (s : string) : string :=
  match s with
  | EmptyString => EmptyString
  | String c s' =>
      match skip with
      | S k => replace_from old new k s'
      | O =>
          if String.prefix old s
          then new +:+ replace_from old new (String.length old - 1) s'
          else String c (replace_from old new O s')
      end
  end.

Definition str_replace (s old new : string) : string :=
  replace_from old new O s.

(** [sep.join(l)] on strings *)
Fixpoint str_join (sep : string) (l : list string) : string :=
  match l with
  | [] => EmptyString
  | [x] => x
  | x :: l' => x +:+ sep +:+ str_join sep l'
  end.

(** [str(n)] for an integer *)
Definition str_of_Z (n : Z) : string := NilZero.string_of_int (Z.to_int n).

Definition chars (s : string) : list string :=
  (fun c => String c EmptyString) <$> list_ascii_of_string s.

(** ** Dynamic operations *)

Fixpoint lookup_field (k : string) (d : list (string * value)) : option value :=
  match d with
  | [] => None
  | (k', v) :: d' => if String.eqb k k' then Some v else lookup_field k d'
  end.

Definition is_str (k : string) (v : value) : bool :=
  match v with
  | VStr s => String.eqb s k
  | _ => false
  end.

(** [k in v] for a string [k] *)
Definition contains (k : string) (v : value) : result bool :=
  match v with
  | VDict d => Ok (match lookup_field k d with Some _ => true | None => false end)
  | VList l => Ok (existsb (is_str k) l)
  | VStr s => Ok (str_contains k s)
  | _ => Raise TypeError
  end.

(** [v[k]] for a string [k] *)
Definition getitem (v : value) (k : string) : result value :=
  match v with
  | VDict d =>
      match lookup_field k d with
      | Some x => Ok x
      | None => Raise KeyError
      end
  | _ => Raise TypeError
  end.

(** [v.get(k, default)] *)
Definition get (v : value) (k : string) (dflt : value) : result value :=
  match v with
  | VDict d =>
      match lookup_field k d with
      | Some x => Ok x
      | None => Ok dflt
      end
  | _ => Raise AttributeError
  end.

(** [for x in v] *)
Definition iter (v : value) : result (list value) :=
  match v with
  | VList l => Ok l
  | VDict d => Ok ((fun kv => VStr kv.1) <$> d)
  | VStr s => Ok (VStr <$> chars s)
  | _ => Raise TypeError
  end.

(** [v.items()] *)
Definition items (v : value) : result (list (string * value)) :=
  match v with
  | VDict d => Ok d
  | _ => Raise AttributeError
  end.

(** [str(v)], as an f-string renders [{v}] *)
Definition format (v : value) : result string :=
  match v with
  | VStr s => Ok s
  | VInt n => Ok (str_of_Z n)
  | VBool true => Ok "True"
  | VBool false => Ok "False"
  | VNone => Ok "None"
  | VDate _ | VList _ | VDict _ => Unmodelled
  end.

Definition as_str (v : value) : result string :=
  match v with
  | VStr s => Ok s
  | _ => Raise TypeError
  end.

(** [sep.join(v)] *)
Definition join (sep : string) (v : value) : result string :=
  xs ← iter v;
  ss ← mapM' as_str xs;
  Ok (str_join sep ss).

(** [v += s] for a string [s] *)
Definition iadd_str (v : value) (s : string) : result value :=
  match v with
  | VStr t => Ok (VStr (t +:+ s))
  | VList l => Ok (VList (l ++ (VStr <$> chars s)))
  | _ => Raise TypeError
  end.

(** [v.replace(old, new)] with two strings.  A datetime has a [replace]
    method of its own, which refuses a string. *)
Definition replace (v : value) (old new : string) : result string :=
  match v with
  | VStr s => Ok (str_replace s old new)
  | VDate _ => Raise TypeError
  | _ => Raise AttributeError
  end.

(** [c.lower()] on the code points below 256: [A-Z] and the accented
    capitals U+00C0 to U+00DE (the multiplication sign U+00D7 apart) move
    up by 32. *)
Definition char_lower (c : ascii) : ascii :=
  let n := N_of_ascii c in
  if ((65 <=? n) && (n <=? 90) ||
      (192 <=? n) && (n <=? 222) && negb (n =? 215))%N
  then ascii_of_N (n + 32)
  else c.

Fixpoint str_map (f : ascii -> ascii) (s : string) : string :=
  match s with
  | EmptyString => EmptyString
  | String c s' => String (f c) (str_map f s')
  end.

(** [v.lower()] *)
Definition lower (v : value) : result string :=
  match v with
  | VStr s => Ok (str_map char_lower s)
  | _ => Raise AttributeError
  end.

(** [a // b] *)
Definition floordiv (a b : Z) : result Z :=
  if b =? 0 then Raise ZeroDivisionError else Ok (a / b).

(** [range(n)] *)
Definition range (n : Z) : list Z := seqZ 0 n.

(** [range(start, stop, step)] for a positive [step] *)
Definition range_step (start stop step : Z) : list Z :=
  (fun k => start + k * step) <$> seqZ 0 ((stop - start + step - 1) / step).

(** [int(d.timestamp())]: whole seconds, truncated towards zero.
    [timestamp()] is a float; below 2^34 seconds on either side of the
    epoch its rounding error stays under a microsecond and the
    truncation is the exact one.  Further out the result is not
    computed. *)
Definition timestamp_exact (us : Z) : bool :=
  Z.abs us <? 17179869184 * 1000000.

Definition timestamp_int (v : value) : result Z :=
  match v with
  | VDate us => if timestamp_exact us then Ok (us ÷ 1000000) else Unmodelled
  | _ => Raise AttributeError
  end.

(** A [bool] is an [int] in comparisons. *)
Definition as_int (v : value) : option Z :=
  match v with
  | VInt n => Some n
  | VBool b => Some (if b then 1 else 0)
  | _ => None
  end.

(** [a < b], as [sorted] uses it *)
Definition lt (a b : value) : result bool :=
  match as_int a, as_int b with
  | Some x, Some y => Ok (x <? y)
  | _, _ =>
      match a, b with
      | VDate x, VDate y => Ok (x <? y)
      | VStr x, VStr y => Ok (String.ltb x y)
      | VList _, VList _ => Unmodelled
      | _, _ => Raise TypeError
      end
  end.

(** Objects a global name can be bound to: the [datetime] module, its
    [datetime] class, or a plain value. *)
Inductive object : Type :=
| ModuleDatetime
| ClassDatetime
| Plain (v : value).

(** [datetime.datetime.min] is 0001-01-01 00:00:00. *)
Definition datetime_min : Z := -62135596800000000.
Definition datetime_max : Z := 253402300799999999.

(** [o.name].  The class [datetime.datetime] has no attribute named
    [datetime]; attributes the script never reads are left out. *)
Definition getattr (o : object) (name : string) : result object :=
  match o with
  | ModuleDatetime =>
      if String.eqb name "datetime" then Ok ClassDatetime else Unmodelled
  | ClassDatetime =>
      if String.eqb name "min" then Ok (Plain (VDate datetime_min))
      else if String.eqb name "max" then Ok (Plain (VDate datetime_max))
      else if String.eqb name "datetime" then Raise AttributeError
      else Unmodelled
  | Plain _ => Unmodelled
  end.

Definition as_value (o : object) : result value :=
  match o with
  | Plain v => Ok v
  | _ => Unmodelled
  end.

(** Stable insertion by [<], the order [sorted] produces. *)
Fixpoint insert_by {A} (key : A -> value) (x : A) (l : list A)
  : result (list A) :=
  match l with
  | [] => Ok [x]
  | y :: l' =>
      before ← lt (key y) (key x);
      if before : bool
      then r ← insert_by key x l'; Ok (y :: r)
      else Ok (x :: l)
  end.

Fixpoint sort_by {A} (key : A -> value) (l : list A) : result (list A) :=
  match l with
  | [] => Ok []
  | x :: l' => r ← sort_by key l'; insert_by key x r
  end.

(** [sorted(l, key=f)]: every key is computed before any comparison. *)
Definition sorted_with_key (f : value -> result value) (l : list value)
  : result (list value) :=
  keys ← mapM' f l;
  r ← sort_by fst (zip keys l);
  Ok (snd <$> (r : list (value * value))).

(** [sorted(v)] *)
Definition sorted (v : value) : result (list value) :=
  l ← iter v;
  sort_by id l.

(** A key of one of the script's lookup tables.  The tables are keyed by
    document ids, which are strings; a list or a dict cannot be hashed. *)
Definition map_get {V} (m : gmap string V) (key : value) (dflt : V)
  : result V :=
  match key with
  | VStr k => Ok (default dflt (m !! k))
  | VList _ | VDict _ => Raise TypeError
  | _ => Ok dflt
  end.

Definition map_mem {V} (m : gmap string V) (key : value) : result bool :=
  match key with
  | VStr k => Ok (bool_decide (is_Some (m !! k)))
  | VList _ | VDict _ => Raise TypeError
  | _ => Ok false
  end.

Definition as_key (v : value) : result string :=
  match v with
  | VStr k => Ok k
  | VList _ | VDict _ => Raise TypeError
  | _ => Unmodelled
  end.

End Py.

Import Py.

(** ** The namespace of the script *)

(** The global names that are bound when the loops of the script run,
    the variables of the loops apart: the names of the import
    statements, [logger], [stats], [CHUNK_SIZE] and the helper
    functions.  The variables the script assigns on its way, such as
    [db] or [room_map], are arguments of the definitions below. *)
Definition module_names : list string :=
  ["argparse"; "json"; "os"; "sys"; "datetime"; "Path"; "logging";
   "logger"; "pymongo"; "MongoClient"; "pd"; "stats"; "CHUNK_SIZE"; "slug";
   "make_user_entry"; "make_room_entry"; "escape_for_csv";
   "prepare_message_for_csv"; "process_message_content"]%string.

(** Reading a global name that is not a builtin. *)
Definition read_name (name : string) : result unit :=
  if existsb (String.eqb name) module_names then Ok tt else Raise NameError.

(** ** Helper functions of the script *)

(** The character class [[a-z0-9_-]] of [slug]. *)
Definition slug_safe (c : ascii) : bool :=
  let n := N_of_ascii c in
  ((97 <=? n) && (n <=? 122) || (48 <=? n) && (n <=? 57) ||
   (n =? 95) || (n =? 45))%N.

Definition slug_char (c : ascii) : ascii :=
  if slug_safe c then c else "-"%char.

(** [re.sub(r'[^a-z0-9_-]', '-', name.lower())[:80]]: the name [re] is
    read first. *)
Definition slug (name : value) : result string :=
  _ ← read_name "re";
  lowered ← lower name;
  Ok (slice (str_map slug_char lowered) 0 80).

Definition escape_for_csv (text : value) : result string :=
  match text with
  | VNone => Ok EmptyString
  | _ => replace text dquote (dquote +:+ dquote)
  end.

Definition part_indicator (i num_parts : Z) : string :=
  "[Part " +:+ str_of_Z (i + 1) +:+ "/" +:+ str_of_Z num_parts +:+ "] ".

Definition prepare_message_for_csv (text : value) (max_length : Z)
  : result (list string) :=
  if negb (truthy text) then Ok [EmptyString] else
  escaped_text ← replace text dquote (dquote +:+ dquote);
  if len escaped_text <=? max_length then Ok [escaped_text] else
  let total_length := len escaped_text in
  num_parts ← floordiv (total_length + max_length - 1) max_length;
  Ok ((fun i =>
         let start := i * max_length in
         let stop := Z.min (start + max_length) total_length in
         let segment := slice escaped_text start stop in
         part_indicator i num_parts +:+ segment) <$> range num_parts).

Definition default_max_length : Z := 4000.

(** *** The content extractor *)

(** [k in d and d[k]] *)
Definition present_and_truthy (d : value) (k : string) : result bool :=
  has ← contains k d;
  if has : bool then v ← getitem d k; Ok (truthy v) else Ok false.

(** [if content: content += "\n"] with a line feed *)
Definition newline_if_content (content : value) : result value :=
  if truthy content then iadd_str content LF else Ok content.

(** One round of the loop over [attachment['descriptionMd']]. *)
Definition mention_step (desc md_item : value) : result value :=
  ty ← get md_item "type" VNone;
  if is_str "MENTION_USER" ty then
    inner ← get md_item "value" (VDict []);
    user_value ← get inner "value" (VStr EmptyString);
    match desc with
    | VStr d =>
        u ← format user_value;
        Ok (VStr (str_replace d ("@" +:+ u) ("@" +:+ u)))
    | VDate _ =>
        u ← format user_value;
        Raise TypeError
    | _ => Raise AttributeError
    end
  else Ok desc.

(** One round of the loop over [msg['attachments']]. *)
Definition attachment_step (content attachment : value) : result value :=
  has_description ← present_and_truthy attachment "description";
  if has_description : bool then
    content ← newline_if_content content;
    desc ← get attachment "description" (VStr EmptyString);
    has_md ← contains "descriptionMd" attachment;
    desc ← (if has_md : bool then
              md ← getitem attachment "descriptionMd";
              md_items ← iter md;
              foldM mention_step desc md_items
            else Ok desc);
    d ← format desc;
    iadd_str content ("[Attachment: " +:+ d +:+ "]")
  else
    has_title ← contains "title" attachment;
    if has_title : bool then
      content ← newline_if_content content;
      title ← get attachment "title" (VStr EmptyString);
      t ← format title;
      iadd_str content ("[Attachment: " +:+ t +:+ "]")
    else Ok content.

(** [content += f"[File: {file_info.get('name', '')}]"] on its own line *)
Definition append_file (content file_info : value) : result value :=
  content ← newline_if_content content;
  name ← get file_info "name" (VStr EmptyString);
  n ← format name;
  iadd_str content ("[File: " +:+ n +:+ "]").

(** One round of the loop over [msg['files']]. *)
Definition file_step (content file_info : value) : result value :=
  name ← get file_info "name" (VStr EmptyString);
  is_thumb ← contains "thumb-" name;
  if is_thumb : bool then Ok content else append_file content file_info.

(** One round of the loop over [msg['reactions'].items()]. *)
Definition reaction_step (reactions_text : list string)
    (entry : string * value) : result (list string) :=
  let '(emoji, data) := entry in
  has ← contains "usernames" data;
  if has : bool then
    usernames ← getitem data "usernames";
    names ← join ", " usernames;
    Ok (reactions_text ++ [emoji +:+ " (" +:+ names +:+ ")"])
  else Ok reactions_text.

(** The block [# Handle attachments]. *)
Definition handle_attachments (msg content : value) : result value :=
  has_attachments ← present_and_truthy msg "attachments";
  if has_attachments : bool then
    attachments ← getitem msg "attachments";
    l ← iter attachments;
    foldM attachment_step content l
  else Ok content.

(** The block [# Handle files]. *)
Definition handle_files (msg content : value) : result value :=
  has_file ← present_and_truthy msg "file";
  if has_file : bool then
    file_info ← getitem msg "file";
    append_file content file_info
  else
    has_files ← present_and_truthy msg "files";
    if has_files : bool then
      files ← getitem msg "files";
      l ← iter files;
      foldM file_step content l
    else Ok content.

(** The block [# Handle reactions]. *)
Definition handle_reactions (msg content : value) : result value :=
  has_reactions ← present_and_truthy msg "reactions";
  if has_reactions : bool then
    reactions ← getitem msg "reactions";
    entries ← items reactions;
    reactions_text ← foldM reaction_step [] entries;
    match reactions_text with
    | [] => Ok content
    | _ =>
        content ← newline_if_content content;
        iadd_str content
          ("[Reactions: " +:+ str_join " | " reactions_text +:+ "]")
    end
  else Ok content.

Definition process_message_content (msg : value) : result value :=
  content ← get msg "msg" (VStr EmptyString);
  _ ← present_and_truthy msg "mentions";
  content ← handle_attachments msg content;
  content ← handle_files msg content;
  handle_reactions msg content.

(** *** Rooms *)

(** The dictionary [make_room_entry] returns; [entry_name] is its
    ["name"] key, and so on. *)
Record room_entry : Type := {
  entry_id : string;
  entry_name : string;
  entry_created : Z;
  entry_is_archived : bool;
  entry_is_private : bool }.

Definition make_room_entry (rc_room : value) (private : bool)
  : result room_entry :=
  has_name ← contains "name" rc_room;
  room_name ←
    (if has_name : bool then getitem rc_room "name"
     else
       has_usernames ← contains "usernames" rc_room;
       if has_usernames : bool then
         usernames ← getitem rc_room "usernames";
         l ← sorted usernames;
         j ← join "-" (VList l);
         Ok (VStr j)
       else
         i ← getitem rc_room "_id";
         f ← format i;
         Ok (VStr ("dm-" +:+ f)));
  i ← getitem rc_room "_id";
  f ← format i;
  n ← slug room_name;
  ts ← getitem rc_room "ts";
  c ← timestamp_int ts;
  archived ← get rc_room "archived" VNone;
  Ok {| entry_id := "C" +:+ f; entry_name := n; entry_created := c;
        entry_is_archived := truthy archived; entry_is_private := private |}.

(** ** Phase 2: rooms by destination file *)

Record rooms_by_type : Type := {
  channels_json : list room_entry;
  groups_json : list room_entry;
  dms_json : list room_entry;
  mpims_json : list room_entry }.

Definition no_rooms : rooms_by_type :=
  {| channels_json := []; groups_json := []; dms_json := [];
     mpims_json := [] |}.

Definition rooms_step (acc : rooms_by_type) (r : value)
  : result rooms_by_type :=
  t ← getitem r "t";
  if is_str "c" t then
    e ← make_room_entry r false;
    Ok {| channels_json := channels_json acc ++ [e];
          groups_json := groups_json acc; dms_json := dms_json acc;
          mpims_json := mpims_json acc |}
  else if is_str "p" t then
    e ← make_room_entry r true;
    Ok {| channels_json := channels_json acc;
          groups_json := groups_json acc ++ [e]; dms_json := dms_json acc;
          mpims_json := mpims_json acc |}
  else if is_str "d" t then
    e ← make_room_entry r true;
    Ok {| channels_json := channels_json acc;
          groups_json := groups_json acc; dms_json := dms_json acc ++ [e];
          mpims_json := mpims_json acc |}
  else if is_str "l" t then
    e ← make_room_entry r true;
    Ok {| channels_json := channels_json acc;
          groups_json := groups_json acc; dms_json := dms_json acc;
          mpims_json := mpims_json acc ++ [e] |}
  else Ok acc.

(** [for r in tqdm(db.rocketchat_room.find())]: the header reads [tqdm]. *)
Definition export_rooms (rooms : list value) : result rooms_by_type :=
  _ ← read_name "tqdm";
  foldM rooms_step no_rooms rooms.

(** ** Phase 3: the room map and the CSV files *)

Definition room_map_step (room_map : gmap string string) (r : value)
  : result (gmap string string) :=
  has_name ← contains "name" r;
  if has_name : bool then
    n ← getitem r "name";
    s ← slug n;
    i ← getitem r "_id";
    k ← as_key i;
    Ok (<[k := s]> room_map)
  else
    has_usernames ← contains "usernames" r;
    if has_usernames : bool then
      usernames ← getitem r "usernames";
      l ← sorted usernames;
      j ← join "-" (VList l);
      s ← slug (VStr j);
      i ← getitem r "_id";
      k ← as_key i;
      Ok (<[k := s]> room_map)
    else
      i ← getitem r "_id";
      f ← format i;
      i' ← getitem r "_id";
      k ← as_key i';
      Ok (<[k := "dm-" +:+ f]> room_map).

Definition build_room_map (rooms : list value) : result (gmap string string) :=
  foldM room_map_step ∅ rooms.

(** [from datetime import datetime] *)
Definition datetime : result object := getattr ModuleDatetime "datetime".

(** [lambda x: x.get('ts') if 'ts' in x else datetime.datetime.min] *)
Definition ts_key (x : value) : result value :=
  has_ts ← contains "ts" x;
  if has_ts : bool then get x "ts" VNone
  else
    d ← datetime;
    c ← getattr d "datetime";
    m ← getattr c "min";
    as_value m.

Definition sort_messages (all_messages : list value) : result (list value) :=
  sorted_with_key ts_key all_messages.

(** [csv.writer(f, quoting=csv.QUOTE_MINIMAL)] with the default dialect:
    comma delimiter, double-quote character (code 34) that is doubled
    inside a quoted field, line terminator CR LF. *)
Module Csv.

Definition special (c : ascii) : bool :=
  let n := N_of_ascii c in
  ((n =? 44) || (n =? 34) || (n =? 13) || (n =? 10))%N.

Fixpoint needs_quotes (s : string) : bool :=
  match s with
  | EmptyString => false
  | String c s' => special c || needs_quotes s'
  end.

Fixpoint double_quotes (s : string) : string :=
  match s with
  | EmptyString => EmptyString
  | String c s' =>
      if (N_of_ascii c =? 34)%N
      then String c (String c (double_quotes s'))
      else String c (double_quotes s')
  end.

Definition quote_field (s : string) : string :=
  if needs_quotes s then dquote +:+ double_quotes s +:+ dquote else s.

(** The text of a field: [None] is written as the empty string, any
    other value as [str] gives it. *)
Definition field_text (v : value) : result string :=
  match v with
  | VNone => Ok EmptyString
  | _ => format v
  end.

(** The record [writerow] writes, without its line terminator.  A row
    made of one empty field is written as two quote characters. *)
Definition record (row : list value) : result string :=
  texts ← mapM' field_text row;
  let line := str_join "," (quote_field <$> texts) in
  match texts with
  | [t] => if String.eqb t EmptyString then Ok (dquote +:+ dquote) else Ok line
  | _ => Ok line
  end.

Definition writerow (file : string) (row : list value) : result string :=
  r ← record row;
  Ok (file +:+ r +:+ CR +:+ LF).

End Csv.

Record csv_state : Type := {
  channel_files : gmap string string;
  csv_files_created : list string;
  message_count : Z;
  stats_messages_mongodb : Z }.

Definition csv_start : csv_state :=
  {| channel_files := ∅; csv_files_created := []; message_count := 0;
     stats_messages_mongodb := 0 |}.

(** [if 'rid' not in msg or 'u' not in msg or 'ts' not in msg] *)
Definition incomplete (msg : value) : result bool :=
  has_rid ← contains "rid" msg;
  if negb has_rid then Ok true else
  has_u ← contains "u" msg;
  if negb has_u then Ok true else
  has_ts ← contains "ts" msg;
  Ok (negb has_ts).

Section CsvPhase.

Variable room_map : gmap string string.
Variable username_map : gmap string value.
Variables csv_base_name csv_extension : string.

(** [room_map.get(msg['rid'], f"unknown-{msg['rid']}")] *)
Definition channel_of (msg : value) : result string :=
  rid ← getitem msg "rid";
  rid' ← getitem msg "rid";
  f ← format rid';
  map_get room_map rid ("unknown-" +:+ f).

(** [username_map.get(user_id, msg['u'].get('username', 'unknown-user'))] *)
Definition username_of (msg : value) : result value :=
  u ← getitem msg "u";
  user_id ← get u "_id" VNone;
  u' ← getitem msg "u";
  embedded ← get u' "username" (VStr "unknown-user");
  map_get username_map user_id embedded.

(** The body of [if channel not in channel_files]: the file is created,
    then [csv] is read for the writer that is to receive the header
    row. *)
Definition open_channel (st : csv_state) (channel : string) : result csv_state :=
  match channel_files st !! channel with
  | Some _ => Ok st
  | None =>
      _ ← read_name "csv";
      header ← Csv.writerow EmptyString
                 [VStr "timestamp"; VStr "channel"; VStr "username"; VStr "text"];
      Ok {| channel_files := <[channel := header]> (channel_files st);
            csv_files_created :=
              csv_files_created st ++
              [csv_base_name +:+ "_" +:+ channel +:+ csv_extension];
            message_count := message_count st;
            stats_messages_mongodb := stats_messages_mongodb st |}
  end.

(** One round of [for part in text_parts]. *)
Definition write_part (timestamp : Z) (channel : string)
    (user_identifier : value) (st : csv_state) (part : string)
  : result csv_state :=
  match channel_files st !! channel with
  | None => Raise KeyError
  | Some file =>
      file' ← Csv.writerow file
                [VInt timestamp; VStr channel; user_identifier; VStr part];
      Ok {| channel_files := <[channel := file']> (channel_files st);
            csv_files_created := csv_files_created st;
            message_count := message_count st + 1;
            stats_messages_mongodb := stats_messages_mongodb st + 1 |}
  end.

(** The body of [for msg in tqdm(messages)]. *)
Definition csv_step (st : csv_state) (msg : value) : result csv_state :=
  skip ← incomplete msg;
  if skip : bool then Ok st else
  ts ← getitem msg "ts";
  timestamp ← timestamp_int ts;
  channel ← channel_of msg;
  user_identifier ← username_of msg;
  text ← process_message_content msg;
  text_parts ← prepare_message_for_csv text default_max_length;
  st ← open_channel st channel;
  foldM (write_part timestamp channel user_identifier) st text_parts.

(** The sort, then the loop; its header reads [tqdm]. *)
Definition csv_phase (all_messages : list value) : result csv_state :=
  messages ← sort_messages all_messages;
  _ ← read_name "tqdm";
  foldM csv_step csv_start messages.

End CsvPhase.

(** ** Phase 4: the JSON files *)

(** [json.dumps] with its defaults: ASCII output, [", "] and [": "] as
    separators, no indentation. *)
Module Json.

Definition hex_digit (n : N) : ascii :=
  if (n <? 10)%N then ascii_of_N (48 + n) else ascii_of_N (87 + n).

Definition escape_char (c : ascii) : string :=
  let n := N_of_ascii c in
  if (n =? 34)%N then backslash +:+ dquote
  else if (n =? 92)%N then backslash +:+ backslash
  else if (n =? 10)%N then backslash +:+ "n"
  else if (n =? 13)%N then backslash +:+ "r"
  else if (n =? 9)%N then backslash +:+ "t"
  else if (n =? 8)%N then backslash +:+ "b"
  else if (n =? 12)%N then backslash +:+ "f"
  else if ((32 <=? n) && (n <=? 126))%N then String c EmptyString
  else backslash +:+ "u00" +:+
       String (hex_digit (n / 16)) (String (hex_digit (n mod 16)) EmptyString).

Fixpoint escape (s : string) : string :=
  match s with
  | EmptyString => EmptyString
  | String c s' => escape_char c +:+ escape s'
  end.

Definition encode_string (s : string) : string :=
  dquote +:+ escape s +:+ dquote.

Fixpoint dumps (v : value) : result string :=
  match v with
  | VNone => Ok "null"
  | VBool true => Ok "true"
  | VBool false => Ok "false"
  | VInt n => Ok (str_of_Z n)
  | VStr s => Ok (encode_string s)
  | VDate _ => Raise TypeError
  | VList l =>
      ss ← (fix go (l : list value) : result (list string) :=
              match l with
              | [] => Ok []
              | x :: l' => s ← dumps x; r ← go l'; Ok (s :: r)
              end) l;
      Ok ("[" +:+ str_join ", " ss +:+ "]")
  | VDict d =>
      ss ← (fix go (d : list (string * value)) : result (list string) :=
              match d with
              | [] => Ok []
              | (k, x) :: d' =>
                  s ← dumps x; r ← go d';
                  Ok ((encode_string k +:+ ": " +:+ s) :: r)
              end) d;
      Ok ("{" +:+ str_join ", " ss +:+ "}")
  end.

End Json.

Definition CHUNK_SIZE : Z := 1000.

Record json_state : Type := {
  json_out_dir : gmap string string;
  processed_messages : Z }.

Definition json_start : json_state :=
  {| json_out_dir := ∅; processed_messages := 0 |}.

Section JsonPhase.

Variable room_map : gmap string string.
Variable username_map : gmap string value.
Variable email_map : gmap string value.

(** The messages of the store, in the order of their [ts]. *)
Variable cursor : list value.

(** [email_map.get(user_id) if user_id in email_map else
     username_map.get(user_id, msg['u'].get('username', 'unknown-user'))] *)
Definition json_username_of (msg : value) : result value :=
  u ← getitem msg "u";
  user_id ← get u "_id" VNone;
  known ← map_mem email_map user_id;
  if known : bool then map_get email_map user_id VNone
  else
    u' ← getitem msg "u";
    embedded ← get u' "username" (VStr "unknown-user");
    map_get username_map user_id embedded.

(** One round of [for msg in message_chunk]. *)
Definition json_step (json_lines : list string) (msg : value)
  : result (list string) :=
  skip ← incomplete msg;
  if skip : bool then Ok json_lines else
  channel ← channel_of room_map msg;
  user_identifier ← json_username_of msg;
  text ← process_message_content msg;
  ts ← getitem msg "ts";
  timestamp ← timestamp_int ts;
  line ← Json.dumps (VDict [("timestamp", VInt timestamp);
                            ("channel", VStr channel);
                            ("username", user_identifier);
                            ("text", text)]);
  Ok (json_lines ++ [line]).

(** [list(db.rocketchat_message.find().sort("ts", ASCENDING)
          .skip(chunk_start).limit(CHUNK_SIZE))]: the arguments of [sort]
    read [ASCENDING]. *)
Definition message_chunk (chunk_start : Z) : result (list value) :=
  _ ← read_name "ASCENDING";
  Ok (take (Z.to_nat CHUNK_SIZE) (drop (Z.to_nat chunk_start) cursor)).

Definition json_chunk_file (chunk_start : Z) : string :=
  "messages_" +:+ str_of_Z (chunk_start / CHUNK_SIZE + 1) +:+ ".json".

(** What [f.write] receives.  The separator is the literal of the
    source, a backslash followed by the letter n. *)
Definition json_file_text (json_lines : list string) : string :=
  str_join (backslash +:+ "n") json_lines +:+ (backslash +:+ "n").

(** What a round does with the batch it has fetched: the records, the
    file, the count. *)
Definition json_batch (st : json_state) (chunk_start : Z)
    (message_chunk : list value) : result json_state :=
  json_lines ← foldM json_step [] message_chunk;
  Ok {| json_out_dir :=
          <[json_chunk_file chunk_start := json_file_text json_lines]>
            (json_out_dir st);
        processed_messages :=
          processed_messages st + Z.of_nat (length message_chunk) |}.

(** The body of [for chunk_start in tqdm(range(0, total_messages,
    CHUNK_SIZE))]. *)
Definition json_chunk (st : json_state) (chunk_start : Z) : result json_state :=
  chunk ← message_chunk chunk_start;
  json_batch st chunk_start chunk.

(** The loop; its header reads [tqdm]. *)
Definition json_phase : result json_state :=
  let total_messages := Z.of_nat (length cursor) in
  _ ← read_name "tqdm";
  foldM json_chunk json_start (range_step 0 total_messages CHUNK_SIZE).

End JsonPhase.

(** ** Phase 1: users *)

Fixpoint zeros (n : nat) : string :=
  match n with
  | O => EmptyString
  | S n' => String "0" (zeros n')
  end.

(** [f"{n:07d}"]: the decimal digits of [n], with zeros on the left up
    to a width of seven characters, sign included. *)
Definition format_07d (n : Z) : string :=
  let digits := str_of_Z (Z.abs n) in
  let sign := if n <? 0 then "-" else EmptyString in
  sign +:+
  zeros (7 - String.length sign - String.length digits) +:+
  digits.

(** The dictionary [make_user_entry] returns, its [profile] flattened. *)
Record user_entry : Type := {
  user_id : string;
  user_name : value;
  user_deleted : bool;
  profile_real_name : value;
  profile_email : value }.

(** The search for an address in [make_user_entry]: the first element
    of a list, or the entry ["0"] of a dictionary. *)
Definition find_email (emails : value) : result value :=
  match emails with
  | VList (first :: _) =>
      has_address ← contains "address" first;
      if has_address : bool then getitem first "address"
      else Ok (VStr EmptyString)
  | VDict _ =>
      has_0 ← contains "0" emails;
      if has_0 : bool then
        e0 ← getitem emails "0";
        has_address ← contains "address" e0;
        if has_address : bool then
          e0' ← getitem emails "0";
          getitem e0' "address"
        else Ok (VStr EmptyString)
      else Ok (VStr EmptyString)
  | _ => Ok (VStr EmptyString)
  end.

(** The block [# Try to extract email with different possible
    structures]. *)
Definition extract_email (rc_user : value) : result value :=
  has_emails ← contains "emails" rc_user;
  if has_emails : bool then
    emails ← get rc_user "emails" VNone;
    find_email emails
  else Ok (VStr EmptyString).

Definition make_user_entry (rc_user : value) (uid : Z) : result user_entry :=
  email ← extract_email rc_user;
  username ← getitem rc_user "username";
  active ← get rc_user "active" (VBool true);
  username' ← getitem rc_user "username";
  real_name ← get rc_user "name" username';
  Ok {| user_id := "U" +:+ format_07d uid;
        user_name := username;
        user_deleted := negb (truthy active);
        profile_real_name := real_name;
        profile_email := email |}.

(** [for idx, u in enumerate(tqdm(db.users.find().sort("username",
    ASCENDING)), 1): slack_users.append(make_user_entry(u, idx))]: the
    header reads [tqdm], then [ASCENDING]. *)
Definition export_users (users : list value) : result (list user_entry) :=
  _ ← read_name "tqdm";
  _ ← read_name "ASCENDING";
  foldM (fun slack_users (iu : Z * value) =>
           e ← make_user_entry iu.2 iu.1;
           Ok (slack_users ++ [e]))
        [] (zip (seqZ 1 (Z.of_nat (length users))) users).

(** ** Phase 3: the user tables *)

Definition is_none (v : value) : bool :=
  match v with
  | VNone => true
  | _ => false
  end.

(** [email_map[u['_id']] = address] *)
Definition set_email (u address : value)
    (maps : gmap string value * gmap string value)
  : result (gmap string value * gmap string value) :=
  i ← getitem u "_id";
  k ← as_key i;
  Ok (maps.1, <[k := address]> maps.2).

(** One round of [for u in db.users.find()]; the state is the pair of
    [username_map] and [email_map]. *)
Definition user_maps_step (maps : gmap string value * gmap string value)
    (u : value) : result (gmap string value * gmap string value) :=
  username ← getitem u "username";
  i ← getitem u "_id";
  k ← as_key i;
  let maps := (<[k := username]> maps.1, maps.2) in
  has_emails ← contains "emails" u;
  known ← (if has_emails : bool then
             e ← getitem u "emails"; Ok (negb (is_none e))
           else Ok false);
  if known : bool then
    emails ← getitem u "emails";
    match emails with
    | VDict _ =>
        has_0 ← contains "0" emails;
        if has_0 : bool then
          e0 ← getitem emails "0";
          has_address ← contains "address" e0;
          if has_address : bool then
            address ← getitem e0 "address";
            set_email u address maps
          else Ok maps
        else Ok maps
    | VList (first :: _) =>
        has_address ← contains "address" first;
        if has_address : bool then
          address ← getitem first "address";
          set_email u address maps
        else Ok maps
    | _ => Ok maps
    end
  else Ok maps.

Definition build_user_maps (users : list value)
  : result (gmap string value * gmap string value) :=
  foldM user_maps_step (∅, ∅) users.

(** * Vocabulary of the statements *)

(** [str_concat l] glues the strings of [l] together. *)
Fixpoint str_concat (l : list string) : string :=
  match l with
  | [] => EmptyString
  | x :: l' => x +:+ str_concat l'
  end.

(** The [n] consecutive pieces of [m] characters of [s], from piece [j]
    on. *)
Definition chunks (m : nat) (s : string) (j n : nat) : list string :=
  (fun k => str_take m (str_drop (k * m) s)) <$> seq j n.

(** The indicator put before part number [i] (counted from 1) of [n]. *)
Definition part_prefix (i n : Z) : string :=
  "[Part " +:+ str_of_Z i +:+ "/" +:+ str_of_Z n +:+ "] ".

(** Text with its double quotes doubled, as [prepare_message_for_csv]
    computes it. *)
Definition escaped_text (text : string) : string :=
  str_replace text dquote (dquote +:+ dquote).

(** [n] copies of the character [c]. *)
Fixpoint str_repeat (c : ascii) (n : nat) : string :=
  match n with
  | O => EmptyString
  | S n' => String c (str_repeat c n')
  end.

(** The record of one message part, as [csv.writer] lays it out. *)
Definition row_text (timestamp : Z) (channel user part : string) : string :=
  str_join "," (Csv.quote_field <$> [str_of_Z timestamp; channel; user; part]).

(** The lines a list of parts adds to a channel's file. *)
Definition rows_text (timestamp : Z) (channel user : string)
    (parts : list string) : string :=
  str_concat ((fun part => row_text timestamp channel user part +:+ CR +:+ LF)
                <$> parts).

Definition header_text : string :=
  "timestamp,channel,username,text" +:+ CR +:+ LF.

(** A state of the CSV phase in which only the file of [channel] is
    open, holding its header row. *)
Definition one_open_file (channel : string) : csv_state :=
  {| channel_files := {[channel := header_text]};
     csv_files_created := ["messages_export_" +:+ channel +:+ ".csv"];
     message_count := 0;
     stats_messages_mongodb := 0 |}.

(** A state in which the files of [general] and [random] are open,
    each holding its header row. *)
Definition two_open_files : csv_state :=
  {| channel_files := {["general" := header_text; "random" := header_text]};
     csv_files_created :=
       ["messages_export_general.csv"; "messages_export_random.csv"];
     message_count := 0;
     stats_messages_mongodb := 0 |}.

(** The message of the worked example: text [hi "there"] by [bob] in
    room [R], at 2023-11-14 22:13:20. *)
Definition quoted_message : value :=
  VDict [("rid", VStr "R");
         ("u", VDict [("_id", VStr "u1"); ("username", VStr "bob")]);
         ("ts", VDate 1700000000000000);
         ("msg", VStr ("hi " +:+ dquote +:+ "there" +:+ dquote))].

(** A message with a room, an author and a timestamp and no text. *)
Definition bare_message : value :=
  VDict [("rid", VStr "R");
         ("u", VDict [("_id", VStr "u1"); ("username", VStr "bob")]);
         ("ts", VDate 1700000000000000)].

(** [s] between double quotes. *)
Definition quoted (s : string) : string := dquote +:+ s +:+ dquote.

(** The row a writer makes of [quoted_message] in channel [general]
    when it is given the text with its quotes doubled: each quote of the
    text appears four times. *)
Definition written_row : string :=
  "1700000000,general,bob," +:+
  quoted ("hi " +:+ dquote +:+ dquote +:+ dquote +:+ dquote +:+ "there" +:+
          dquote +:+ dquote +:+ dquote +:+ dquote).

(** The JSON records of [quoted_message] and [bare_message]. *)
Definition quoted_message_json : string :=
  "{" +:+ quoted "timestamp" +:+ ": 1700000000, " +:+
  quoted "channel" +:+ ": " +:+ quoted "general" +:+ ", " +:+
  quoted "username" +:+ ": " +:+ quoted "bob" +:+ ", " +:+
  quoted "text" +:+ ": " +:+
  quoted ("hi " +:+ backslash +:+ dquote +:+ "there" +:+ backslash +:+ dquote)
  +:+ "}".

Definition bare_message_json : string :=
  "{" +:+ quoted "timestamp" +:+ ": 1700000000, " +:+
  quoted "channel" +:+ ": " +:+ quoted "general" +:+ ", " +:+
  quoted "username" +:+ ": " +:+ quoted "bob" +:+ ", " +:+
  quoted "text" +:+ ": " +:+ quoted EmptyString +:+ "}".

(** A message without a room reference. *)
Definition roomless_message : value :=
  VDict [("u", VDict [("_id", VStr "u1"); ("username", VStr "bob")]);
         ("ts", VDate 1700000000000000);
         ("msg", VStr "lost")].

(** A message without a timestamp. *)
Definition undated_message : value :=
  VDict [("rid", VStr "R");
         ("u", VDict [("_id", VStr "u1"); ("username", VStr "bob")]);
         ("msg", VStr "when")].

(** A direct-message room with neither a name nor usernames. *)
Definition anonymous_room : value :=
  VDict [("_id", VStr "AbC"); ("t", VStr "d"); ("ts", VDate 1500000000000000)].

(** *** The shape of a message document

    The optional fields of a message, when they are present, hold values
    of the shapes below.  Every field may be absent; the fields that hold
    a container may also be null. *)

Definition optional (k : string) (P : value -> bool)
    (d : list (string * value)) : bool :=
  match lookup_field k d with
  | Some v => P v
  | None => true
  end.

Definition is_string (v : value) : bool :=
  match v with
  | VStr _ => true
  | _ => false
  end.

Definition is_dict (P : list (string * value) -> bool) (v : value) : bool :=
  match v with
  | VDict d => P d
  | _ => false
  end.

Definition is_list (P : value -> bool) (v : value) : bool :=
  match v with
  | VList l => forallb P l
  | _ => false
  end.

Definition or_none (P : value -> bool) (v : value) : bool :=
  match v with
  | VNone => true
  | _ => P v
  end.

(** An entry of the rich-mention markup: when its type is
    [MENTION_USER], its value, if any, is a dictionary whose own value,
    if any, is a string. *)
Definition wf_mention (d : list (string * value)) : bool :=
  match lookup_field "type" d with
  | Some ty =>
      if is_str "MENTION_USER" ty
      then optional "value" (is_dict (optional "value" is_string)) d
      else true
  | None => true
  end.

Definition wf_attachment (d : list (string * value)) : bool :=
  optional "description" is_string d &&
  optional "title" is_string d &&
  optional "descriptionMd" (is_list (is_dict wf_mention)) d.

Definition wf_file (d : list (string * value)) : bool :=
  optional "name" is_string d.

Definition wf_reaction (entry : string * value) : bool :=
  is_dict (optional "usernames" (is_list is_string)) entry.2.

Definition wf_message (msg : value) : bool :=
  is_dict (fun d =>
    optional "msg" is_string d &&
    optional "attachments" (or_none (is_list (is_dict wf_attachment))) d &&
    optional "file" (or_none (is_dict wf_file)) d &&
    optional "files" (or_none (is_list (is_dict wf_file))) d &&
    optional "reactions" (or_none (is_dict (forallb wf_reaction))) d) msg.

Definition string_value (v : value) : Prop := exists s, v = VStr s.

(** A message that uses every optional field. *)
Definition full_message : value :=
  VDict [("rid", VStr "R");
         ("msg", VStr "hello");
         ("mentions", VList [VDict [("username", VStr "bob")]]);
         ("attachments",
          VList [VDict [("description", VStr "see @bob");
                        ("descriptionMd",
                         VList [VDict [("type", VStr "MENTION_USER");
                                       ("value", VDict [("type", VStr "PLAIN_TEXT");
                                                        ("value", VStr "bob")])]])];
                 VDict [("title", VStr "T1")];
                 VDict []]);
         ("files", VList [VDict [("name", VStr "thumb-x.png")];
                          VDict [("name", VStr "y.png")]]);
         ("reactions",
          VDict [(":+1:", VDict [("usernames", VList [VStr "a"; VStr "b"])]);
                 (":x:", VDict [])])].

(** A room with neither a name nor usernames. *)
Definition unnamed (r : value) : Prop :=
  contains "name" r = Ok false /\ contains "usernames" r = Ok false.

(** A room map in which every id is sent to [dm-] followed by the id. *)
Definition fallback_names (room_map : gmap string string) : Prop :=
  forall k s, room_map !! k = Some s -> s = "dm-" +:+ k.

(** A user document [make_user_entry] accepts: a dictionary with a
    username, whose [emails] field, if it is a list, starts with a
    dictionary and, if it is a dictionary, has a dictionary under ["0"]
    or no such key. *)
Definition any_dict (v : value) : bool := is_dict (fun _ => true) v.

Definition wf_emails (v : value) : bool :=
  match v with
  | VList (first :: _) => any_dict first
  | VDict d => optional "0" any_dict d
  | _ => true
  end.

Definition wf_user (u : value) : bool :=
  is_dict (fun d =>
    match lookup_field "username" d with Some _ => true | None => false end &&
    optional "emails" wf_emails d) u.

Definition user_bob : value :=
  VDict [("_id", VStr "u1"); ("username", VStr "bob");
         ("emails", VList [VDict [("address", VStr "bob@example.org");
                                  ("verified", VBool true)]]);
         ("active", VBool false)].

Definition user_al : value :=
  VDict [("_id", VStr "u2"); ("username", VStr "al"); ("name", VStr "Al");
         ("emails", VDict [("0", VDict [("address", VStr "al@example.org")])])].

Definition general_room : value :=
  VDict [("_id", VStr "GENERAL"); ("t", VStr "c");
         ("name", VStr "General Chat"); ("ts", VDate 1500000000000000)].

(** The number a string of decimal digits denotes, leading zeros
    allowed. *)
Definition parse_digits (s : string) : option Z :=
  Z.of_uint <$> NilEmpty.uint_of_string s.

(** The field [k] of [d] is absent or falsy: [k in d and d[k]] fails. *)
Definition without (k : string) (d : list (string * value)) : bool :=
  match lookup_field k d with
  | Some v => negb (truthy v)
  | None => true
  end.

(** The name of a file entry, the empty string when it has none. *)
Definition file_name (f : value) : string :=
  match f with
  | VDict fd =>
      match lookup_field "name" fd with
      | Some (VStr n) => n
      | _ => EmptyString
      end
  | _ => EmptyString
  end.

Definition is_thumbnail (f : value) : bool :=
  str_contains "thumb-" (file_name f).

Definition file_line (f : value) : string :=
  "[File: " +:+ file_name f +:+ "]".

(** [line] appended to [content], on a line of its own unless [content]
    is empty. *)
Definition add_line (content line : string) : string :=
  if String.eqb content EmptyString then line
  else content +:+ LF +:+ line.

(** Doubled double quotes collapsed, as a CSV reader does inside a
    quoted field. *)
Fixpoint undouble (s : string) : string :=
  match s with
  | EmptyString => EmptyString
  | String a t =>
      match t with
      | String b s' =>
          if (N_of_ascii a =? 34)%N && (N_of_ascii b =? 34)%N
          then String a (undouble s')
          else String a (undouble t)
      | EmptyString => String a EmptyString
      end
  end.

(** The timestamp of a message, and whether it has one. *)
Definition timestamp_of (msg : value) : Z :=
  match getitem msg "ts" with
  | Ok (VDate us) => us
  | _ => 0
  end.

Definition dated (msg : value) : bool :=
  match getitem msg "ts" with
  | Ok (VDate _) => true
  | _ => false
  end.

(** The message has a room, an author and a timestamp. *)
Definition complete (msg : value) : bool :=
  match incomplete msg with
  | Ok false => true
  | _ => false
  end.

(** * Properties *)

(** ** Strings: lengths, prefixes and chunks *)

Section StringFacts.

Lemma app_cons c s t : String c s +:+ t = String c (s +:+ t).
Proof. reflexivity. Qed.

Lemma app_empty_l s : EmptyString +:+ s = s.
Proof. reflexivity. Qed.

Lemma app_empty_r s : s +:+ EmptyString = s.
Proof. induction s as [|c s IH]; [done|]. by rewrite app_cons, IH. Qed.

Lemma app_assoc' s t u : (s +:+ t) +:+ u = s +:+ (t +:+ u).
Proof. induction s as [|c s IH]; [done|]. by rewrite !app_cons, IH. Qed.

Lemma length_app s t :
  String.length (s +:+ t) = (String.length s + String.length t)%nat.
Proof. induction s as [|c s IH]; [done|]. rewrite app_cons. simpl. by rewrite IH. Qed.

Lemma len_app s t : len (s +:+ t) = len s + len t.
Proof. unfold len. rewrite length_app. lia. Qed.

Lemma len_nonneg s : 0 <= len s.
Proof. unfold len. lia. Qed.

Lemma length_take n s :
  String.length (str_take n s) = Nat.min n (String.length s).
Proof.
  revert s. induction n as [|n IH]; intros [|c s]; simpl; try done.
  by rewrite IH.
Qed.

Lemma length_drop n s :
  String.length (str_drop n s) = (String.length s - n)%nat.
Proof.
  revert s. induction n as [|n IH]; intros [|c s]; simpl; try done.
Qed.

Lemma take_all n s : (String.length s <= n)%nat -> str_take n s = s.
Proof.
  revert s. induction n as [|n IH]; intros [|c s] H; simpl in *; try done.
  - lia.
  - rewrite IH; [done | lia].
Qed.

Lemma take_min n s : str_take (Nat.min n (String.length s)) s = str_take n s.
Proof.
  revert s. induction n as [|n IH]; intros [|c s]; simpl; try done.
  by rewrite IH.
Qed.

Lemma take_add a b s :
  str_take (a + b) s = str_take a s +:+ str_take b (str_drop a s).
Proof.
  revert s. induction a as [|a IH]; intros [|c s]; simpl; try done.
  - by destruct b.
  - by rewrite IH.
Qed.

Lemma drop_drop a b s : str_drop b (str_drop a s) = str_drop (a + b) s.
Proof.
  revert s. induction a as [|a IH]; intros [|c s]; simpl; try done.
  by destruct b.
Qed.

End StringFacts.

Lemma chunks_concat m s n j :
  str_concat (chunks m s j n) = str_take (n * m) (str_drop (j * m) s).
Proof.
  unfold chunks. revert j. induction n as [|n IH]; intros j; simpl.
  - done.
  - rewrite IH, take_add, drop_drop. do 3 f_equal. lia.
Qed.

Lemma chunks_length m s j n : length (chunks m s j n) = n.
Proof. unfold chunks. by rewrite length_fmap, length_seq. Qed.

Lemma chunks_bounded m s j n :
  Forall (fun seg => len seg <= Z.of_nat m) (chunks m s j n).
Proof.
  unfold chunks. apply Forall_fmap, Forall_forall. intros k _. simpl.
  unfold len. rewrite length_take. lia.
Qed.

(** ** The splitter *)

Lemma ceil_div_bounds (L m : Z) :
  0 < m -> (((L + m - 1) / m) - 1) * m < L <= ((L + m - 1) / m) * m.
Proof.
  intros Hm.
  pose proof (Z.div_mod (L + m - 1) m ltac:(lia)) as Hdm.
  pose proof (Z.mod_pos_bound (L + m - 1) m Hm) as Hb.
  nia.
Qed.

Lemma slice_chunk s a m :
  0 <= a <= len s -> 0 < m ->
  slice s a (Z.min (a + m) (len s)) =
  str_take (Z.to_nat m) (str_drop (Z.to_nat a) s).
Proof.
  intros Ha Hm. unfold slice, clamp_index.
  destruct (Z.ltb_spec a 0) as [?|_]; [lia|].
  destruct (Z.ltb_spec (Z.min (a + m) (len s)) 0) as [?|_]; [lia|].
  rewrite (Z.min_l a (len s)) by lia.
  rewrite <- (take_min (Z.to_nat m)). f_equal.
  rewrite length_drop. unfold len in *. lia.
Qed.

Lemma prepare_split (text : string) (max_length : Z) :
  let escaped := escaped_text text in
  let N := (len escaped + max_length - 1) / max_length in
  0 < max_length -> max_length < len escaped ->
  prepare_message_for_csv (VStr text) max_length =
  Ok (zip_with (fun i seg => part_prefix i N +:+ seg) (seqZ 1 N)
        (chunks (Z.to_nat max_length) escaped 0 (Z.to_nat N))).
Proof.
  intros escaped N Hm HL.
  pose proof (ceil_div_bounds (len escaped) max_length Hm) as HN.
  fold N in HN.
  unfold prepare_message_for_csv.
  assert (truthy (VStr text) = true) as ->.
  { destruct text; [|done]. unfold escaped, len in HL. simpl in HL. lia. }
  simpl. fold (escaped_text text). fold escaped.
  destruct (Z.leb_spec (len escaped) max_length) as [?|_]; [lia|].
  unfold floordiv. destruct (Z.eqb_spec max_length 0) as [?|_]; [lia|].
  simpl. fold N. f_equal.
  unfold range, seqZ, chunks.
  rewrite zip_with_fmap_l, zip_with_fmap_r, zip_with_diag.
  rewrite <- list_fmap_compose.
  apply Forall_fmap_ext, Forall_forall. intros k Hk%elem_of_seq. simpl.
  unfold part_indicator, part_prefix.
  rewrite !Z.add_0_r. f_equal.
  rewrite slice_chunk by nia.
  do 2 f_equal. nia.
Qed.

(** C5: a text whose escaped length [L] exceeds the threshold is split
    into exactly [N = ceil(L / threshold)] parts; part [i] is the
    indicator [[Part i/N] ] followed by a segment of at most [threshold]
    characters, for [i] running from 1 to [N] in order; and the segments
    glued together give back the escaped text. *)
Theorem split_numbered_segments (text : string) (max_length : Z) :
  0 < max_length ->
  max_length < len (escaped_text text) ->
  exists (N : Z) (segments parts : list string),
    (N - 1) * max_length < len (escaped_text text) <= N * max_length /\
    prepare_message_for_csv (VStr text) max_length = Ok parts /\
    Z.of_nat (length parts) = N /\
    Z.of_nat (length segments) = N /\
    parts = zip_with (fun i seg => part_prefix i N +:+ seg) (seqZ 1 N) segments /\
    Forall (fun seg => len seg <= max_length) segments /\
    str_concat segments = escaped_text text.
Proof.
  intros Hm HL.
  set (N := (len (escaped_text text) + max_length - 1) / max_length).
  pose proof (ceil_div_bounds (len (escaped_text text)) max_length Hm) as HN.
  fold N in HN.
  exists N, (chunks (Z.to_nat max_length) (escaped_text text) 0 (Z.to_nat N)).
  eexists. split; [exact HN|]. split; [by apply prepare_split|].
  assert (0 <= N) by nia.
  split; [|split; [|split; [|split]]].
  - rewrite length_zip_with, length_seqZ, chunks_length. lia.
  - rewrite chunks_length. lia.
  - reflexivity.
  - pose proof (chunks_bounded (Z.to_nat max_length) (escaped_text text)
                  0 (Z.to_nat N)) as Hb.
    by rewrite Z2Nat.id in Hb by lia.
  - rewrite chunks_concat. simpl. apply take_all.
    unfold len in *. nia.
Qed.

Lemma split_numbered_segments_witness :
  exists (N : Z) (segments parts : list string),
    (N - 1) * 4 < len (escaped_text "hi there, everyone") <= N * 4 /\
    prepare_message_for_csv (VStr "hi there, everyone") 4 = Ok parts /\
    Z.of_nat (length parts) = N /\
    Z.of_nat (length segments) = N /\
    parts = zip_with (fun i seg => part_prefix i N +:+ seg) (seqZ 1 N) segments /\
    Forall (fun seg => len seg <= 4) segments /\
    str_concat segments = escaped_text "hi there, everyone".
Proof.
  apply (split_numbered_segments "hi there, everyone" 4); [lia | reflexivity].
Defined.

(** ** Writing the parts of a message *)

Lemma record_part ts channel user utext part :
  Csv.field_text user = Ok utext ->
  Csv.record [VInt ts; VStr channel; user; VStr part] =
  Ok (row_text ts channel utext part).
Proof. intros H. unfold Csv.record. simpl. rewrite H. reflexivity. Qed.

Lemma write_part_ok ts channel user utext part st file :
  Csv.field_text user = Ok utext ->
  channel_files st !! channel = Some file ->
  write_part ts channel user st part =
  Ok {| channel_files :=
          <[channel := file +:+ row_text ts channel utext part +:+ CR +:+ LF]>
            (channel_files st);
        csv_files_created := csv_files_created st;
        message_count := message_count st + 1;
        stats_messages_mongodb := stats_messages_mongodb st + 1 |}.
Proof.
  intros Hu Hfile. unfold write_part, Csv.writerow.
  by rewrite Hfile, (record_part _ _ _ _ _ Hu).
Qed.

Lemma write_parts ts channel user utext parts st file :
  Csv.field_text user = Ok utext ->
  channel_files st !! channel = Some file ->
  foldM (write_part ts channel user) st parts =
  Ok {| channel_files :=
          <[channel := file +:+ rows_text ts channel utext parts]>
            (channel_files st);
        csv_files_created := csv_files_created st;
        message_count := message_count st + Z.of_nat (length parts);
        stats_messages_mongodb :=
          stats_messages_mongodb st + Z.of_nat (length parts) |}.
Proof.
  intros Hu. revert st file.
  induction parts as [|part parts IH]; intros st file Hfile.
  - destruct st as [files created n k]. simpl in *.
    unfold rows_text. simpl. rewrite app_empty_r, !Z.add_0_r.
    by rewrite insert_id.
  - cbn [foldM]. rewrite (write_part_ok _ _ _ _ _ _ _ Hu Hfile).
    cbn [mbind result_bind].
    erewrite IH by (simpl; apply lookup_insert_eq). simpl.
    rewrite insert_insert_eq. unfold rows_text. simpl.
    rewrite !app_assoc'. do 2 f_equal; lia.
Qed.

(** C4, as the claim states it, fails: with the default maximum of 4000
    characters, a text of 4001 characters is split into two parts, and
    the first one, indicator included, has 4011 characters. *)
Lemma split_part_over_maximum :
  ~ (forall (text : string) (max_length : Z) (parts : list string),
       0 < max_length ->
       max_length < len (escaped_text text) ->
       prepare_message_for_csv (VStr text) max_length = Ok parts ->
       Forall (fun part => len part <= max_length) parts).
Proof.
  intros claim.
  assert (prepare_message_for_csv (VStr (str_repeat "a" 4001)) default_max_length
          = Ok ["[Part 1/2] " +:+ str_repeat "a" 4000; "[Part 2/2] a"]) as Hparts
    by (vm_compute; reflexivity).
  apply claim in Hparts; [|reflexivity|vm_compute; reflexivity].
  apply Forall_cons_1 in Hparts as [Hfirst _].
  vm_compute in Hfirst. by apply Hfirst.
Qed.

(** C4, amended: when an oversized text is split, every part is its
    indicator followed by a segment of at most [max_length] characters,
    so a part is at most [max_length] characters longer than its own
    indicator; and the parts are written to the channel's file as
    consecutive rows, in order. *)
Theorem split_parts_bounded_and_consecutive
    (text : string) (max_length : Z) (timestamp : Z) (channel : string)
    (user : value) (utext : string) (st : csv_state) (file : string) :
  0 < max_length ->
  max_length < len (escaped_text text) ->
  Csv.field_text user = Ok utext ->
  channel_files st !! channel = Some file ->
  exists (N : Z) (parts : list string) (st' : csv_state),
    prepare_message_for_csv (VStr text) max_length = Ok parts /\
    Z.of_nat (length parts) = N /\
    (forall (i : nat) (part : string),
       parts !! i = Some part ->
       exists seg,
         part = part_prefix (Z.of_nat i + 1) N +:+ seg /\
         len seg <= max_length /\
         len part <= len (part_prefix (Z.of_nat i + 1) N) + max_length) /\
    foldM (write_part timestamp channel user) st parts = Ok st' /\
    channel_files st' !! channel =
      Some (file +:+ rows_text timestamp channel utext parts).
Proof.
  intros Hm HL Hu Hfile.
  set (N := (len (escaped_text text) + max_length - 1) / max_length).
  pose proof (ceil_div_bounds (len (escaped_text text)) max_length Hm) as HN.
  fold N in HN. assert (0 <= N) by nia.
  exists N. do 2 eexists.
  split; [by apply prepare_split|]. fold N.
  split; [|split; [|split]].
  - rewrite length_zip_with, length_seqZ, chunks_length. lia.
  - intros i part (x & seg & -> & Hx & Hseg)%lookup_zip_with_Some.
    apply lookup_seqZ in Hx as [-> _].
    pose proof (chunks_bounded (Z.to_nat max_length) (escaped_text text)
                  0 (Z.to_nat N)) as Hb.
    rewrite Forall_lookup in Hb. apply Hb in Hseg.
    rewrite Z2Nat.id in Hseg by lia.
    exists seg. rewrite (Z.add_comm 1). split; [done|]. split; [done|].
    rewrite len_app. lia.
  - by apply (write_parts _ _ _ utext _ _ file).
  - simpl. apply lookup_insert_eq.
Qed.

Lemma split_parts_bounded_and_consecutive_witness :
  exists (N : Z) (parts : list string) (st' : csv_state),
    prepare_message_for_csv (VStr "hi there, everyone") 4 = Ok parts /\
    Z.of_nat (length parts) = N /\
    (forall (i : nat) (part : string),
       parts !! i = Some part ->
       exists seg,
         part = part_prefix (Z.of_nat i + 1) N +:+ seg /\
         len seg <= 4 /\
         len part <= len (part_prefix (Z.of_nat i + 1) N) + 4) /\
    foldM (write_part 1700000000 "general" (VStr "bob"))
      (one_open_file "general") parts = Ok st' /\
    channel_files st' !! "general" =
      Some (header_text +:+ rows_text 1700000000 "general" "bob" parts).
Proof.
  apply (split_parts_bounded_and_consecutive "hi there, everyone" 4
           1700000000 "general" (VStr "bob") "bob" (one_open_file "general")
           header_text);
    [lia | reflexivity | reflexivity | reflexivity].
Defined.

(** C8, as the claim states it, fails: the limit is applied to the
    escaped text.  A text of 4000 characters that holds one double quote
    is within the default threshold, its escaped form has 4001
    characters, and two parts come out. *)
Lemma short_text_with_quote_is_split :
  ~ (forall (text escaped : string) (max_length : Z),
       len text <= max_length ->
       escape_for_csv (VStr text) = Ok escaped ->
       prepare_message_for_csv (VStr text) max_length = Ok [escaped]).
Proof.
  intros claim.
  specialize (claim (dquote +:+ str_repeat "a" 3999) _ default_max_length
                ltac:(vm_compute; discriminate) eq_refl).
  vm_compute in claim. discriminate claim.
Qed.

(** C8, amended: for the content [T] the extractor returns, if the
    CSV-escaped [T] has at most [max_length] characters, the splitter
    yields exactly one part, the CSV-escaped [T]. *)
Theorem short_escaped_text_single_part
    (msg T : value) (escaped : string) (max_length : Z) :
  process_message_content msg = Ok T ->
  escape_for_csv T = Ok escaped ->
  len escaped <= max_length ->
  prepare_message_for_csv T max_length = Ok [escaped].
Proof.
  intros _ Hesc Hlen. unfold prepare_message_for_csv.
  destruct T as [| | |s| | |]; simpl in Hesc; try discriminate.
  - by injection Hesc as <-.
  - injection Hesc as <-. destruct s as [|c s]; [done|].
    cbn [truthy String.eqb negb]. simpl.
    destruct (Z.leb_spec (len (str_replace (String c s) dquote (dquote +:+ dquote)))
                max_length); [done | lia].
Qed.

Lemma short_escaped_text_single_part_witness :
  prepare_message_for_csv (VStr ("hi " +:+ dquote +:+ "there" +:+ dquote))
    default_max_length
  = Ok ["hi " +:+ dquote +:+ dquote +:+ "there" +:+ dquote +:+ dquote].
Proof.
  apply (short_escaped_text_single_part quoted_message);
    [reflexivity | reflexivity | vm_compute; discriminate].
Defined.

(** ** The body of the CSV loop *)

Section CsvFacts.

Variable room_map : gmap string string.
Variable username_map : gmap string value.
Variables csv_base_name csv_extension : string.

Local Abbreviation step :=
  (csv_step room_map username_map csv_base_name csv_extension).


(** A complete message of a channel whose file is open: its parts are
    appended to the file and counted. *)
Lemma csv_step_open st msg ts t channel file user utext content parts :
  incomplete msg = Ok false ->
  getitem msg "ts" = Ok ts ->
  timestamp_int ts = Ok t ->
  channel_of room_map msg = Ok channel ->
  username_of username_map msg = Ok user ->
  Csv.field_text user = Ok utext ->
  process_message_content msg = Ok content ->
  prepare_message_for_csv content default_max_length = Ok parts ->
  channel_files st !! channel = Some file ->
  step st msg =
  Ok {| channel_files :=
          <[channel := file +:+ rows_text t channel utext parts]>
            (channel_files st);
        csv_files_created := csv_files_created st;
        message_count := message_count st + Z.of_nat (length parts);
        stats_messages_mongodb :=
          stats_messages_mongodb st + Z.of_nat (length parts) |}.
Proof.
  intros Hinc Hts Ht Hch Hus Hu Hcontent Hparts Hfile.
  unfold csv_step.
  rewrite Hinc, Hts. cbn [mbind result_bind].
  rewrite Ht, Hch, Hus, Hcontent. cbn [mbind result_bind].
  rewrite Hparts. cbn [mbind result_bind].
  unfold open_channel. rewrite Hfile. cbn [mbind result_bind].
  by apply write_parts.
Qed.

(** A complete message of a channel whose file is not open yet: the
    file is to be opened, and the name [csv] is read. *)
Lemma csv_step_unopened st msg ts t channel user content parts :
  incomplete msg = Ok false ->
  getitem msg "ts" = Ok ts ->
  timestamp_int ts = Ok t ->
  channel_of room_map msg = Ok channel ->
  username_of username_map msg = Ok user ->
  process_message_content msg = Ok content ->
  prepare_message_for_csv content default_max_length = Ok parts ->
  channel_files st !! channel = None ->
  step st msg = Raise NameError.
Proof.
  intros Hinc Hts Ht Hch Hus Hcontent Hparts Hfile.
  unfold csv_step.
  rewrite Hinc, Hts. cbn [mbind result_bind].
  rewrite Ht, Hch, Hus, Hcontent. cbn [mbind result_bind].
  rewrite Hparts. cbn [mbind result_bind].
  unfold open_channel. by rewrite Hfile.
Qed.

(** C10: for a valid message whose extracted content is the empty
    string or [None], the splitter returns exactly one part, the empty
    string.  The row for it is not written: the file of the message's
    channel has to be opened first, and there the body of the CSV loop
    reads the name [csv], which the script never binds, and raises
    [NameError]. *)
Theorem empty_content_row_not_written
    (st : csv_state) (msg content ts user : value) (t : Z)
    (channel : string) :
  incomplete msg = Ok false ->
  getitem msg "ts" = Ok ts ->
  timestamp_int ts = Ok t ->
  channel_of room_map msg = Ok channel ->
  username_of username_map msg = Ok user ->
  process_message_content msg = Ok content ->
  content = VStr EmptyString \/ content = VNone ->
  channel_files st !! channel = None ->
  prepare_message_for_csv content default_max_length = Ok [EmptyString] /\
  step st msg = Raise NameError.
Proof.
  intros Hinc Hts Ht Hch Hus Hcontent Hempty Hfile.
  assert (prepare_message_for_csv content default_max_length = Ok [EmptyString])
    as Hparts by (by destruct Hempty as [-> | ->]).
  split; [done|].
  by apply (csv_step_unopened st msg ts t channel user content [EmptyString]).
Qed.

End CsvFacts.

Lemma empty_content_row_not_written_witness :
  prepare_message_for_csv (VStr EmptyString) default_max_length
    = Ok [EmptyString] /\
  csv_step {["R" := "general"]} ∅ "messages_export" ".csv"
    csv_start bare_message = Raise NameError.
Proof.
  apply (empty_content_row_not_written {["R" := "general"]} ∅
           "messages_export" ".csv" csv_start bare_message
           (VStr EmptyString) (VDate 1700000000000000) (VStr "bob")
           1700000000 "general");
    first [reflexivity | left; reflexivity].
Defined.

(** ** The worked example of the CSV phase *)

Lemma escaped_text_double_quotes s : escaped_text s = Csv.double_quotes s.
Proof.
  unfold escaped_text, str_replace.
  induction s as [|c s IH]; [done|].
  cbn [replace_from Csv.double_quotes dquote String.prefix].
  destruct (ascii_dec "034" c) as [<-|Hc].
  - assert (String.prefix EmptyString s = true) as -> by (by destruct s).
    rewrite <- IH. reflexivity.
  - rewrite <- IH.
    destruct (N.eqb_spec (N_of_ascii c) 34) as [Heq|_]; [|done].
    destruct Hc. by rewrite <- (ascii_N_embedding c), Heq.
Qed.

Lemma needs_quotes_double s :
  Csv.needs_quotes (Csv.double_quotes s) = Csv.needs_quotes s.
Proof.
  induction s as [|c s IH]; [done|]. simpl.
  destruct (N.eqb_spec (N_of_ascii c) 34) as [Heq|_]; simpl; rewrite IH;
    [|done].
  unfold Csv.special. rewrite Heq. reflexivity.
Qed.

Lemma double_quotes_plain s :
  Csv.needs_quotes s = false -> Csv.double_quotes s = s.
Proof.
  induction s as [|c s IH]; [done|]. simpl.
  intros [Hc Hs]%orb_false_elim. rewrite (IH Hs).
  unfold Csv.special in Hc.
  destruct (N.eqb_spec (N_of_ascii c) 34) as [Heq|_]; [|done].
  rewrite Heq in Hc. discriminate Hc.
Qed.

(** The field a writer makes of a part that is the whole escaped
    text. *)
Lemma quote_field_escaped s :
  Csv.quote_field (escaped_text s) =
  if Csv.needs_quotes s
  then quoted (Csv.double_quotes (Csv.double_quotes s))
  else s.
Proof.
  rewrite escaped_text_double_quotes. unfold Csv.quote_field.
  rewrite needs_quotes_double.
  destruct (Csv.needs_quotes s) eqn:Hs; [done|].
  by apply double_quotes_plain.
Qed.

(** C1: the message of the worked example.  Its content is extracted
    and its quotes are doubled, but no row is written for it: started on
    a corpus that holds this message alone, the CSV phase sorts it and
    raises [NameError] in the header of its loop, which reads the name
    [tqdm]; and the body of the loop, started on the message with no
    file open, raises [NameError] where it reads the name [csv].  The
    script binds neither name. *)
Theorem quoted_message_row_not_written :
  process_message_content quoted_message
    = Ok (VStr ("hi " +:+ dquote +:+ "there" +:+ dquote)) /\
  prepare_message_for_csv (VStr ("hi " +:+ dquote +:+ "there" +:+ dquote))
    default_max_length
    = Ok ["hi " +:+ dquote +:+ dquote +:+ "there" +:+ dquote +:+ dquote] /\
  sort_messages [quoted_message] = Ok [quoted_message] /\
  csv_phase {["R" := "general"]} ∅ "messages_export" ".csv" [quoted_message]
    = Raise NameError /\
  csv_step {["R" := "general"]} ∅ "messages_export" ".csv"
    csv_start quoted_message = Raise NameError.
Proof. repeat split; reflexivity. Qed.

(** ** The JSON phase *)

Section JsonFacts.

Variable room_map : gmap string string.
Variables username_map email_map : gmap string value.
Variable cursor : list value.




End JsonFacts.

(** C2: a store of two valid messages, which make one batch, the one
    that starts at 0.  No file is written for it: the JSON phase raises
    [NameError] in the header of its loop, which reads the name [tqdm],
    and the body of the loop raises [NameError] where its query reads
    the name [ASCENDING]; the script binds neither.  The rest of the
    body, given the two messages as its batch, puts a backslash followed
    by the letter n after each record of [messages_1.json]: the text holds
    no line feed, and the two records share one line. *)
Theorem json_batch_not_written :
  range_step 0 2 CHUNK_SIZE = [0] /\
  json_phase {["R" := "general"]} ∅ ∅ [quoted_message; bare_message]
    = Raise NameError /\
  json_chunk {["R" := "general"]} ∅ ∅ [quoted_message; bare_message]
    json_start 0 = Raise NameError /\
  exists st text,
    json_batch {["R" := "general"]} ∅ ∅ json_start 0
      [quoted_message; bare_message] = Ok st /\
    json_out_dir st !! "messages_1.json" = Some text /\
    text = quoted_message_json +:+ backslash +:+ "n" +:+
           bare_message_json +:+ backslash +:+ "n" /\
    str_contains LF text = false.
Proof.
  split; [reflexivity|]. split; [reflexivity|]. split; [reflexivity|].
  do 2 eexists. repeat split; reflexivity.
Qed.



(** ** Room names *)

(** Splits a successful sequence of steps into its steps. *)
Ltac split_steps H :=
  repeat match type of H with
         | (?m ≫= _) = Ok _ =>
             let E := fresh "E" in
             destruct m eqn:E; cbn [mbind result_bind] in H;
             [|discriminate H..]
         end.

(** C6: a room with neither a name nor usernames.  The room map stores
    [dm-AbC] for it, but no room-export entry is produced whose name
    could agree with it: [make_room_entry] calls [slug], which reads the
    name [re], never bound by the script, and raises [NameError]; so do
    the body of the room loop and, in its header, the loop itself.  For
    a room with a name, the room map raises [NameError] as well. *)
Theorem fallback_room_has_no_entry :
  (exists room_map,
     build_room_map [anonymous_room] = Ok room_map /\
     room_map !! "AbC" = Some "dm-AbC") /\
  slug (VStr "dm-AbC") = Raise NameError /\
  make_room_entry anonymous_room true = Raise NameError /\
  rooms_step no_rooms anonymous_room = Raise NameError /\
  export_rooms [anonymous_room] = Raise NameError /\
  build_room_map [general_room] = Raise NameError /\
  make_room_entry general_room false = Raise NameError.
Proof.
  split; [eexists; split; reflexivity|]. repeat split; reflexivity.
Qed.

(** ** Sorting the corpus *)

(** C7: sorting a corpus that holds a message without a timestamp.  The
    name [datetime] is the class, which has no attribute [datetime]: the
    evaluation of the sort key raises [AttributeError], and so do the
    sort and the CSV phase. *)
Theorem sort_key_raises_without_timestamp :
  datetime = Ok ClassDatetime /\
  ts_key undated_message = Raise AttributeError /\
  sort_messages [undated_message] = Raise AttributeError /\
  csv_phase {["R" := "general"]} ∅ "messages_export" ".csv"
    [quoted_message; undated_message] = Raise AttributeError.
Proof. repeat split; reflexivity. Qed.

(** ** The content extractor *)

Lemma foldM_invariant {S B} (P : S -> Prop) (Q : B -> Prop)
    (body : S -> B -> result S) :
  (forall st x, P st -> Q x -> exists st', body st x = Ok st' /\ P st') ->
  forall l st, Forall Q l -> P st ->
  exists st', foldM body st l = Ok st' /\ P st'.
Proof.
  intros Hbody l. induction l as [|x l IH]; intros st Hl Hst.
  - by exists st.
  - apply Forall_cons_1 in Hl as [Hx Hl].
    destruct (Hbody st x Hst Hx) as (st1 & Hb & Hst1).
    cbn [foldM]. rewrite Hb. by apply IH.
Qed.

Lemma forallb_Forall {A} (P : A -> bool) l :
  forallb P l = true -> Forall (fun x => P x = true) l.
Proof. rewrite forallb_forall, Forall_forall. intros H x Hx%list_elem_of_In. auto. Qed.

Lemma newline_if_content_string s :
  exists s', newline_if_content (VStr s) = Ok (VStr s').
Proof. unfold newline_if_content. destruct (truthy _); by eexists. Qed.

Lemma mention_step_string desc item :
  string_value desc -> is_dict wf_mention item = true ->
  exists desc', mention_step desc item = Ok desc' /\ string_value desc'.
Proof.
  intros [d ->] Hwf. destruct item as [| | | | | |fields]; try done.
  unfold mention_step, wf_mention, optional in *. simpl in *.
  destruct (lookup_field "type" fields) as [ty|]; simpl;
    [|by eexists; split; [|eexists]].
  destruct (is_str "MENTION_USER" ty); [|by eexists; split; [|eexists]].
  destruct (lookup_field "value" fields) as [inner|]; simpl.
  - destruct inner as [| | | | | |inner]; try done. simpl in *.
    destruct (lookup_field "value" inner) as [[| | |u| | |]|]; try done;
      simpl; by eexists; split; [|eexists].
  - by eexists; split; [|eexists].
Qed.

Lemma attachment_step_string content attachment :
  string_value content -> is_dict wf_attachment attachment = true ->
  exists content',
    attachment_step content attachment = Ok content' /\ string_value content'.
Proof.
  intros [s ->] Hwf. destruct attachment as [| | | | | |d]; try done.
  simpl in Hwf. unfold wf_attachment, optional in Hwf.
  apply andb_prop in Hwf as [[Hdesc Htitle]%andb_prop Hmd].
  destruct (newline_if_content_string s) as [s' Hnl].
  assert (exists content',
            (has_title ← contains "title" (VDict d);
             if has_title : bool then
               content ← newline_if_content (VStr s);
               title ← get (VDict d) "title" (VStr EmptyString);
               t ← format title;
               iadd_str content ("[Attachment: " +:+ t +:+ "]")
             else Ok (VStr s)) = Ok content' /\ string_value content')
    as Htitle_branch.
  { simpl. destruct (lookup_field "title" d) as [[| | |t| | |]|]; try done;
      simpl; [rewrite Hnl; simpl|]; by eexists; split; [|eexists]. }
  unfold attachment_step, present_and_truthy. simpl.
  destruct (lookup_field "description" d) as [[| | |ds| | |]|] eqn:Hd;
    try done; simpl.
  destruct ds as [|c ds]; [done|]. simpl. rewrite Hnl. simpl.
  destruct (lookup_field "descriptionMd" d) as [[| | | | |items|]|];
    try done; simpl; [|by eexists; split; [|eexists]].
  destruct (foldM_invariant string_value
              (fun item => is_dict wf_mention item = true) mention_step
              mention_step_string items (VStr (String c ds)))
    as (desc' & -> & [d' ->]); [by apply forallb_Forall | by eexists |].
  simpl. by eexists; split; [|eexists].
Qed.

Lemma append_file_string content file_info :
  string_value content -> is_dict wf_file file_info = true ->
  exists content',
    append_file content file_info = Ok content' /\ string_value content'.
Proof.
  intros [s ->] Hwf. destruct file_info as [| | | | | |d]; try done.
  simpl in Hwf. unfold wf_file, optional in Hwf.
  destruct (newline_if_content_string s) as [s' Hnl].
  unfold append_file. rewrite Hnl. simpl.
  destruct (lookup_field "name" d) as [[| | |n| | |]|]; try done;
    simpl; by eexists; split; [|eexists].
Qed.

Lemma file_step_string content file_info :
  string_value content -> is_dict wf_file file_info = true ->
  exists content',
    file_step content file_info = Ok content' /\ string_value content'.
Proof.
  intros Hcontent Hwf.
  destruct (append_file_string content file_info Hcontent Hwf) as (c & Hc & ?).
  destruct file_info as [| | | | | |d]; try done.
  simpl in Hwf. unfold wf_file, optional in Hwf.
  unfold file_step. simpl.
  destruct (lookup_field "name" d) as [[| | |n| | |]|]; try done; simpl.
  - destruct (str_contains "thumb-" n); [by exists content | by exists c].
  - by exists c.
Qed.

Lemma join_strings sep l :
  forallb is_string l = true -> exists s, join sep (VList l) = Ok s.
Proof.
  intros Hl. unfold join. simpl.
  assert (exists ss, mapM' as_str l = Ok ss) as [ss ->]; [|by eexists].
  induction l as [|[| | |s| | |] l IH]; try done; [by eexists|].
  destruct (IH Hl) as [ss Hss]. simpl. rewrite Hss. by eexists.
Qed.

Lemma reaction_step_ok reactions_text entry :
  wf_reaction entry = true ->
  exists reactions_text', reaction_step reactions_text entry = Ok reactions_text'.
Proof.
  destruct entry as [emoji data]. unfold wf_reaction. simpl.
  destruct data as [| | | | | |d]; try done. simpl. unfold optional.
  destruct (lookup_field "usernames" d) as [[| | | | |l|]|]; try done;
    simpl; [|by eexists].
  intros Hl. destruct (join_strings ", " l Hl) as [s ->]. by eexists.
Qed.

Lemma present_and_truthy_dict d k :
  present_and_truthy (VDict d) k =
  Ok (match lookup_field k d with Some v => truthy v | None => false end).
Proof. unfold present_and_truthy. simpl. by destruct (lookup_field k d). Qed.

Lemma handle_attachments_string d content :
  string_value content ->
  optional "attachments" (or_none (is_list (is_dict wf_attachment))) d = true ->
  exists content',
    handle_attachments (VDict d) content = Ok content' /\ string_value content'.
Proof.
  intros Hcontent Hwf. unfold optional in Hwf.
  unfold handle_attachments, present_and_truthy. simpl.
  destruct (lookup_field "attachments" d) as [[| | | | |l|]|]; try done;
    simpl; try by exists content.
  destruct l as [|a l]; [by exists content|].
  simpl in Hwf. cbn [mbind result_bind].
  apply (foldM_invariant string_value
           (fun a => is_dict wf_attachment a = true));
    [apply attachment_step_string | by apply (forallb_Forall _ (a :: l)) | done].
Qed.

Lemma handle_files_string d content :
  string_value content ->
  optional "file" (or_none (is_dict wf_file)) d = true ->
  optional "files" (or_none (is_list (is_dict wf_file))) d = true ->
  exists content',
    handle_files (VDict d) content = Ok content' /\ string_value content'.
Proof.
  intros Hcontent Hfile Hfiles. unfold optional in Hfile, Hfiles.
  assert (exists content',
            (has_files ← present_and_truthy (VDict d) "files";
             if has_files : bool then
               files ← getitem (VDict d) "files";
               l ← iter files;
               foldM file_step content l
             else Ok content) = Ok content' /\ string_value content')
    as Hfiles_branch.
  { unfold present_and_truthy. simpl.
    destruct (lookup_field "files" d) as [[| | | | |l|]|]; try done;
      simpl; try by exists content.
    destruct l as [|f l]; [by exists content|].
    simpl in Hfiles. cbn [mbind result_bind].
    apply (foldM_invariant string_value
             (fun f => is_dict wf_file f = true));
      [apply file_step_string | by apply (forallb_Forall _ (f :: l)) | done]. }
  unfold handle_files. rewrite (present_and_truthy_dict d "file").
  cbn [mbind result_bind].
  destruct (lookup_field "file" d) as [[| | | | | |f]|] eqn:Hf; try done;
    cbn [truthy]; try exact Hfiles_branch.
  destruct f as [|kv f]; [exact Hfiles_branch|].
  unfold getitem. rewrite Hf. cbn [mbind result_bind].
  by apply append_file_string.
Qed.

Lemma handle_reactions_string d content :
  string_value content ->
  optional "reactions" (or_none (is_dict (forallb wf_reaction))) d = true ->
  exists content',
    handle_reactions (VDict d) content = Ok content' /\ string_value content'.
Proof.
  intros [s ->] Hwf. unfold optional in Hwf.
  unfold handle_reactions, present_and_truthy. simpl.
  destruct (lookup_field "reactions" d) as [[| | | | | |r]|]; try done;
    simpl; try by eexists; split; [|eexists].
  destruct r as [|e r]; [by eexists; split; [|eexists]|].
  simpl in Hwf. cbn [mbind result_bind].
  destruct (foldM_invariant (fun _ => True) (fun e => wf_reaction e = true)
              reaction_step) with (l := e :: r) (st := @nil string)
    as (texts & -> & _).
  - intros st x _ Hx. destruct (reaction_step_ok st x Hx) as [st' ->].
    by exists st'.
  - by apply forallb_Forall.
  - done.
  - destruct texts as [|t texts]; [by eexists; split; [|eexists]|].
    destruct (newline_if_content_string s) as [s' ->].
    simpl. by eexists; split; [|eexists].
Qed.

(** C9: for every message document whose optional fields (text body,
    mentions, attachments with or without description, title or
    rich-mention markup, file, files, reactions) are each absent or of
    the expected shape, the content extractor raises nothing and returns
    a single string. *)
Theorem extractor_returns_string (msg : value) :
  wf_message msg = true ->
  exists s, process_message_content msg = Ok (VStr s).
Proof.
  intros Hwf. destruct msg as [| | | | | |d]; try done.
  simpl in Hwf.
  apply andb_prop in Hwf as [[[[Hmsg Hatt]%andb_prop Hfile]%andb_prop
                                Hfiles]%andb_prop Hreact].
  unfold process_message_content.
  assert (exists s0, get (VDict d) "msg" (VStr EmptyString) = Ok (VStr s0))
    as [s0 ->].
  { unfold optional in Hmsg. simpl.
    destruct (lookup_field "msg" d) as [[| | |s0| | |]|]; try done;
      by eexists. }
  assert (exists b, present_and_truthy (VDict d) "mentions" = Ok b) as [b ->].
  { unfold present_and_truthy. simpl.
    destruct (lookup_field "mentions" d); by eexists. }
  cbn [mbind result_bind].
  destruct (handle_attachments_string d (VStr s0)) as (c1 & -> & Hc1);
    [by eexists | done |].
  cbn [mbind result_bind].
  destruct (handle_files_string d c1) as (c2 & -> & Hc2); [done..|].
  cbn [mbind result_bind].
  destruct (handle_reactions_string d c2) as (c3 & -> & [s3 ->]); [done..|].
  by exists s3.
Qed.

Lemma extractor_returns_string_witness :
  exists s, process_message_content full_message = Ok (VStr s).
Proof. apply (extractor_returns_string full_message). reflexivity. Defined.

(** * Further properties of the script *)

(** ** The names the script never binds *)

Lemma slug_raises name : slug name = Raise NameError.
Proof. reflexivity. Qed.

(** None of the four loops whose header reads [tqdm] completes: the
    user export and the room export raise [NameError] whatever the
    store holds, and so does the JSON phase; the CSV phase raises
    [NameError] as soon as its sort succeeds, and whatever the sort does,
    the phase does not return. *)
Theorem progress_bar_loops_raise
    (users rooms all_messages cursor : list value)
    (room_map : gmap string string) (username_map email_map : gmap string value)
    (csv_base_name csv_extension : string) :
  export_users users = Raise NameError /\
  export_rooms rooms = Raise NameError /\
  (forall messages,
     sort_messages all_messages = Ok messages ->
     csv_phase room_map username_map csv_base_name csv_extension all_messages
     = Raise NameError) /\
  (forall st,
     csv_phase room_map username_map csv_base_name csv_extension all_messages
     <> Ok st) /\
  json_phase room_map username_map email_map cursor = Raise NameError.
Proof.
  split; [reflexivity|]. split; [reflexivity|].
  split; [|split; [|reflexivity]].
  - intros messages Hsort. unfold csv_phase. by rewrite Hsort.
  - intros st. unfold csv_phase.
    by destruct (sort_messages all_messages).
Qed.

(** ** Rooms *)

Lemma make_room_entry_not_ok rc_room private e :
  make_room_entry rc_room private <> Ok e.
Proof.
  intros Hentry. unfold make_room_entry in Hentry.
  split_steps Hentry.
  match goal with
  | H : slug _ = Ok _ |- _ => rewrite slug_raises in H; discriminate H
  end.
Qed.

(** [make_room_entry] never returns an entry, whatever the room and the
    privacy flag: when the name of the room and its id have been read,
    the call of [slug] raises. *)
Theorem make_room_entry_never_returns (rc_room : value) (private : bool)
    (e : room_entry) :
  make_room_entry rc_room private <> Ok e.
Proof. apply make_room_entry_not_ok. Qed.

(** The body of the room loop stores no entry: the only rooms it gets
    through are those of a kind other than [c], [p], [d] and [l], and
    for them the four files stay as they are. *)
Theorem rooms_step_stores_nothing (acc acc' : rooms_by_type) (r : value) :
  rooms_step acc r = Ok acc' ->
  acc' = acc /\
  exists t,
    getitem r "t" = Ok t /\
    is_str "c" t = false /\ is_str "p" t = false /\
    is_str "d" t = false /\ is_str "l" t = false.
Proof.
  intros Hstep. unfold rooms_step in Hstep.
  destruct (getitem r "t") as [t| |] eqn:Ht; try done.
  cbn [mbind result_bind] in Hstep.
  repeat match type of Hstep with
         | (if is_str ?k t then _ else _) = _ =>
             destruct (is_str k t) eqn:?;
             [destruct (make_room_entry r _) as [e| |] eqn:He;
                [by apply make_room_entry_not_ok in He | done | done]|]
         end.
  injection Hstep as <-. split; [done|]. by exists t.
Qed.

Lemma rooms_step_stores_nothing_witness :
  no_rooms = no_rooms /\
  exists t,
    getitem (VDict [("_id", VStr "V1"); ("t", VStr "v")]) "t" = Ok t /\
    is_str "c" t = false /\ is_str "p" t = false /\
    is_str "d" t = false /\ is_str "l" t = false.
Proof.
  apply (rooms_step_stores_nothing no_rooms no_rooms
           (VDict [("_id", VStr "V1"); ("t", VStr "v")])).
  reflexivity.
Defined.

(** A round of the room-map loop succeeds only for a room with neither
    a name nor usernames, and stores [dm-] followed by the id. *)
Lemma room_map_step_fallback m r m' :
  room_map_step m r = Ok m' ->
  unnamed r /\
  exists k, getitem r "_id" = Ok (VStr k) /\ m' = <[k := "dm-" +:+ k]> m.
Proof.
  intros Hstep. unfold room_map_step in Hstep.
  destruct (contains "name" r) as [[|]| |] eqn:Hname;
    cbn [mbind result_bind] in Hstep; try done.
  { split_steps Hstep.
    match goal with
    | H : slug _ = Ok _ |- _ => rewrite slug_raises in H; discriminate H
    end. }
  destruct (contains "usernames" r) as [[|]| |] eqn:Husers;
    cbn [mbind result_bind] in Hstep; try done.
  { split_steps Hstep.
    match goal with
    | H : slug _ = Ok _ |- _ => rewrite slug_raises in H; discriminate H
    end. }
  split; [done|].
  destruct (getitem r "_id") as [i| |]; cbn [mbind result_bind] in Hstep;
    try done.
  split_steps Hstep. injection Hstep as <-.
  destruct i as [| | |k| | |]; try discriminate E0.
  simplify_eq/=. by eexists.
Qed.

Lemma room_map_fold rooms m m' :
  foldM room_map_step m rooms = Ok m' ->
  fallback_names m ->
  Forall unnamed rooms /\
  fallback_names m' /\
  (forall k, is_Some (m !! k) -> is_Some (m' !! k)) /\
  Forall (fun r => exists k, getitem r "_id" = Ok (VStr k) /\
                             is_Some (m' !! k)) rooms.
Proof.
  revert m. induction rooms as [|r rooms IH]; intros m Hfold Hm.
  - injection Hfold as <-. done.
  - cbn [foldM] in Hfold.
    destruct (room_map_step m r) as [m1| |] eqn:Hstep; try done.
    cbn [mbind result_bind] in Hfold.
    apply room_map_step_fallback in Hstep as (Hr & k & Hid & ->).
    destruct (IH _ Hfold) as (Hrooms & Hm' & Hkeep & Hids).
    { intros k' s. destruct (decide (k = k')) as [<-|Hne].
      - rewrite lookup_insert_eq. by intros [= <-].
      - rewrite lookup_insert_ne by done. apply Hm. }
    split; [by constructor|]. split; [done|]. split.
    + intros k' Hk'. apply Hkeep.
      destruct (decide (k = k')) as [<-|Hne].
      * by rewrite lookup_insert_eq.
      * by rewrite lookup_insert_ne.
    + constructor; [|done]. exists k. split; [done|].
      apply Hkeep. by rewrite lookup_insert_eq.
Qed.

(** When the room map is built, no room of the store has a name or
    usernames, and the map sends the id of every room to [dm-] followed
    by that id, unslugged: these are its only entries. *)
Theorem room_map_holds_fallback_names
    (rooms : list value) (room_map : gmap string string) :
  build_room_map rooms = Ok room_map ->
  Forall unnamed rooms /\
  fallback_names room_map /\
  Forall (fun r => exists k, getitem r "_id" = Ok (VStr k) /\
                             room_map !! k = Some ("dm-" +:+ k)) rooms.
Proof.
  intros Hbuild.
  destruct (room_map_fold rooms ∅ room_map Hbuild) as (Hrooms & Hm & _ & Hids).
  { intros k s. by rewrite lookup_empty. }
  split; [done|]. split; [done|].
  eapply Forall_impl; [exact Hids|].
  intros r (k & Hid & [s Hs]). exists k. split; [done|].
  by rewrite Hs, (Hm k s Hs).
Qed.

Lemma room_map_holds_fallback_names_witness :
  Forall unnamed [anonymous_room] /\
  fallback_names {["AbC" := "dm-AbC"]} /\
  Forall (fun r => exists k, getitem r "_id" = Ok (VStr k) /\
                             ({["AbC" := "dm-AbC"]} : gmap string string) !! k
                             = Some ("dm-" +:+ k)) [anonymous_room].
Proof.
  apply (room_map_holds_fallback_names [anonymous_room] {["AbC" := "dm-AbC"]}).
  reflexivity.
Defined.

(** ** Users *)

(** The two shapes of the [emails] field give the same entry: a list
    that starts with [d] and a dictionary that holds [d] under ["0"]. *)
Theorem email_shapes_agree (d : value) (rest : list value)
    (fields : list (string * value)) (uid : Z) :
  make_user_entry (VDict (("emails", VList (d :: rest)) :: fields)) uid =
  make_user_entry (VDict (("emails", VDict [("0", d)]) :: fields)) uid.
Proof.
  unfold make_user_entry, extract_email. simpl.
  by destruct (contains "address" d) as [[|]| |].
Qed.

(** For a user document with a username, [make_user_entry] raises
    nothing, whether the [emails] field is absent, null, a list or a
    dictionary: the entry has the id [U] and the number on seven digits,
    the username as name, the display name or else the username as real
    name, and is marked deleted exactly when [active] is present and
    false. *)
Theorem make_user_entry_total (d : list (string * value)) (uid : Z) :
  wf_user (VDict d) = true ->
  exists e username,
    make_user_entry (VDict d) uid = Ok e /\
    lookup_field "username" d = Some username /\
    user_id e = "U" +:+ format_07d uid /\
    user_name e = username /\
    profile_real_name e = default username (lookup_field "name" d) /\
    user_deleted e =
      negb (truthy (default (VBool true) (lookup_field "active" d))).
Proof.
  simpl. intros [Hname Hemails]%andb_prop.
  destruct (lookup_field "username" d) as [username|] eqn:Hu; [|done].
  assert (exists email, extract_email (VDict d) = Ok email) as [email Hemail].
  { unfold optional in Hemails. unfold extract_email. simpl.
    destruct (lookup_field "emails" d) as [emails|]; [|by eexists].
    simpl. destruct emails as [| | | | |[|first l]|ed]; try by eexists.
    - destruct first as [| | | | | |fd]; try done. simpl.
      destruct (lookup_field "address" fd); by eexists.
    - simpl in *. unfold optional in Hemails.
      destruct (lookup_field "0" ed) as [[| | | | | |e0]|]; try done;
        simpl; [|by eexists].
      destruct (lookup_field "address" e0); by eexists. }
  unfold make_user_entry. rewrite Hemail. simpl. rewrite Hu. simpl.
  exists {| user_id := "U" +:+ format_07d uid;
            user_name := username;
            user_deleted :=
              negb (truthy (default (VBool true) (lookup_field "active" d)));
            profile_real_name := default username (lookup_field "name" d);
            profile_email := email |}, username.
  split; [|done].
  by destruct (lookup_field "active" d), (lookup_field "name" d).
Qed.

Lemma make_user_entry_total_witness :
  exists e username,
    make_user_entry user_bob 2 = Ok e /\
    lookup_field "username"
      [("_id", VStr "u1"); ("username", VStr "bob");
       ("emails", VList [VDict [("address", VStr "bob@example.org");
                                ("verified", VBool true)]]);
       ("active", VBool false)] = Some username /\
    user_id e = "U" +:+ format_07d 2 /\
    user_name e = username /\
    profile_real_name e =
      default username
        (lookup_field "name"
           [("_id", VStr "u1"); ("username", VStr "bob");
            ("emails", VList [VDict [("address", VStr "bob@example.org");
                                     ("verified", VBool true)]]);
            ("active", VBool false)]) /\
    user_deleted e =
      negb (truthy (default (VBool true)
        (lookup_field "active"
           [("_id", VStr "u1"); ("username", VStr "bob");
            ("emails", VList [VDict [("address", VStr "bob@example.org");
                                     ("verified", VBool true)]]);
            ("active", VBool false)]))).
Proof.
  apply (make_user_entry_total
           [("_id", VStr "u1"); ("username", VStr "bob");
            ("emails", VList [VDict [("address", VStr "bob@example.org");
                                     ("verified", VBool true)]]);
            ("active", VBool false)] 2).
  reflexivity.
Defined.

(** The user tables of the message phases agree with the user export:
    for a user both accept, [username_map] holds the name of the entry
    under the user's id, and [email_map] holds the profile email of the
    entry, or is left as it was when the entry has no address. *)
Theorem user_tables_match_entry (u : value) (uid : Z) (e : user_entry)
    (maps maps' : gmap string value * gmap string value) :
  make_user_entry u uid = Ok e ->
  user_maps_step maps u = Ok maps' ->
  exists k,
    getitem u "_id" = Ok (VStr k) /\
    maps'.1 !! k = Some (user_name e) /\
    (maps'.2 !! k = Some (profile_email e) \/
     profile_email e = VStr EmptyString /\ maps'.2 = maps.2).
Proof.
  intros Hentry Hmaps.
  destruct u as [| | | | | |d]; try done.
  unfold make_user_entry, extract_email in Hentry.
  unfold user_maps_step, set_email in Hmaps. simpl in *.
  destruct (lookup_field "username" d) as [username|];
    [|by destruct (lookup_field "emails" d); simpl in *; split_steps Hentry].
  destruct (lookup_field "_id" d) as [[| | |k| | |]|]; try done.
  exists k. split; [done|].
  destruct (lookup_field "emails" d) as [emails|]; simpl in *.
  - destruct emails as [| | | | |[|first l]|ed]; simpl in *;
      try (split_steps Hentry; simplify_eq/=;
           split; [by rewrite lookup_insert_eq|by right]).
    + destruct (contains "address" first) as [[|]| |]; simpl in *; try done.
      * destruct (getitem first "address"); simpl in *; try done.
        split_steps Hentry. simplify_eq/=.
        split; [|left]; by rewrite lookup_insert_eq.
      * split_steps Hentry. simplify_eq/=.
        split; [by rewrite lookup_insert_eq|by right].
    + destruct (lookup_field "0" ed) as [e0|]; simpl in *.
      * destruct (contains "address" e0) as [[|]| |]; simpl in *; try done.
        -- destruct (getitem e0 "address"); simpl in *; try done.
           split_steps Hentry. simplify_eq/=.
           split; [|left]; by rewrite lookup_insert_eq.
        -- split_steps Hentry. simplify_eq/=.
           split; [by rewrite lookup_insert_eq|by right].
      * split_steps Hentry. simplify_eq/=.
        split; [by rewrite lookup_insert_eq|by right].
  - split_steps Hentry. simplify_eq/=.
    split; [by rewrite lookup_insert_eq|by right].
Qed.

Lemma user_tables_match_entry_witness :
  let e := {| user_id := "U0000002"; user_name := VStr "bob";
              user_deleted := true; profile_real_name := VStr "bob";
              profile_email := VStr "bob@example.org" |} in
  let maps' : gmap string value * gmap string value :=
    (<["u1" := VStr "bob"]> ∅, <["u1" := VStr "bob@example.org"]> ∅) in
  exists k,
    getitem user_bob "_id" = Ok (VStr k) /\
    maps'.1 !! k = Some (user_name e) /\
    (maps'.2 !! k = Some (profile_email e) \/
     profile_email e = VStr EmptyString /\
     maps'.2 = ((∅, ∅) : gmap string value * gmap string value).2).
Proof.
  intros e maps'.
  apply (user_tables_match_entry user_bob 2 e (∅, ∅) maps');
    reflexivity.
Defined.

Lemma parse_zeros k s :
  parse_digits (zeros k +:+ s) = parse_digits s.
Proof.
  unfold parse_digits. induction k as [|k IH]; [done|].
  change (zeros (S k) +:+ s) with (String "0" (zeros k +:+ s)).
  cbn [NilEmpty.uint_of_string].
  destruct (NilEmpty.uint_of_string (zeros k +:+ s)) as [d|] eqn:Hd;
    destruct (NilEmpty.uint_of_string s) as [d'|]; simpl in *; try done.
Qed.

Lemma parse_str_of_Z n : 0 <= n -> parse_digits (str_of_Z n) = Some n.
Proof.
  intros Hn. unfold parse_digits, str_of_Z.
  destruct n as [|p|p]; [done| |lia].
  pose proof (DecimalZ.of_to (Z.pos p)) as Hrt.
  pose proof (DecimalPos.Unsigned.to_uint_nonnil p) as Hnil.
  simpl in *. unfold NilZero.string_of_uint.
  destruct (Pos.to_uint p) eqn:Hd; try done;
    rewrite <- Hd, NilEmpty.usu; simpl; by rewrite Hd, Hrt.
Qed.

Lemma parse_padded n : 0 <= n -> parse_digits (format_07d n) = Some n.
Proof.
  intros Hn. unfold format_07d.
  destruct (Z.ltb_spec n 0) as [?|_]; [lia|].
  rewrite Z.abs_eq by done. change (EmptyString +:+ ?s) with s.
  rewrite parse_zeros. by apply parse_str_of_Z.
Qed.

(** The number of a user id can be read back: parsing the seven-digit
    field of a non-negative number gives the number. *)
Theorem parse_format_07d n :
  0 <= n -> parse_digits (format_07d n) = Some n.
Proof. apply parse_padded. Qed.

Lemma parse_format_07d_witness : parse_digits (format_07d 42) = Some 42.
Proof. apply (parse_format_07d 42). lia. Defined.

Lemma format_07d_inj a b :
  0 <= a -> 0 <= b -> format_07d a = format_07d b -> a = b.
Proof.
  intros Ha Hb Heq. apply (f_equal parse_digits) in Heq.
  rewrite !parse_padded in Heq by done. congruence.
Qed.

(** Two entries that [make_user_entry] makes with different
    non-negative numbers carry different ids, whatever the two users:
    the numbering of the users never gives one id twice. *)
Theorem user_ids_distinct (u u' : value) (a b : Z) (e e' : user_entry) :
  0 <= a -> 0 <= b -> a <> b ->
  make_user_entry u a = Ok e ->
  make_user_entry u' b = Ok e' ->
  user_id e <> user_id e'.
Proof.
  intros Ha Hb Hab He He' Heq.
  unfold make_user_entry in He, He'.
  split_steps He. split_steps He'.
  injection He as <-. injection He' as <-. simpl in Heq.
  injection Heq as Heq. by apply format_07d_inj in Heq.
Qed.

Lemma user_ids_distinct_witness :
  exists e e',
    make_user_entry user_al 1 = Ok e /\
    make_user_entry user_bob 2 = Ok e' /\
    user_id e <> user_id e'.
Proof.
  do 2 eexists. split; [reflexivity|]. split; [reflexivity|].
  apply (user_ids_distinct user_al user_bob 1 2);
    [lia | lia | lia | reflexivity | reflexivity].
Defined.

(** ** The content extractor, continued *)

Lemma replace_from_skip old new k s :
  replace_from old new k s = replace_from old new 0 (str_drop k s).
Proof.
  revert k. induction s as [|c s IH]; intros [|k]; try done.
  simpl. apply IH.
Qed.

Lemma prefix_split old s :
  String.prefix old s = true -> s = old +:+ str_drop (String.length old) s.
Proof.
  revert s. induction old as [|a old IH]; intros s Hp.
  - by destruct s.
  - destruct s as [|b s]; [done|]. simpl in Hp.
    destruct (ascii_dec a b) as [->|]; [|done].
    rewrite app_cons. simpl. by rewrite <- IH.
Qed.

(** Replacing a non-empty pattern by itself changes nothing. *)
Lemma str_replace_same s old :
  old <> EmptyString -> str_replace s old old = s.
Proof.
  intros Hold. unfold str_replace.
  remember (String.length s) as n eqn:Hn.
  revert s Hn. induction n as [n IH] using lt_wf_ind. intros s Hn.
  destruct s as [|c s]; [done|]. cbn [replace_from].
  destruct (String.prefix old (String c s)) eqn:Hp.
  - rewrite replace_from_skip.
    destruct old as [|a old]; [done|].
    pose proof (prefix_split _ _ Hp) as Hsplit.
    change (String.length (String a old) - 1)%nat
      with (String.length old - 0)%nat.
    change (str_drop (String.length (String a old)) (String c s))
      with (str_drop (String.length old) s) in Hsplit.
    rewrite Nat.sub_0_r.
    rewrite (IH (String.length (str_drop (String.length old) s)));
      [| rewrite length_drop; simpl in Hn; lia | done].
    by symmetry.
  - f_equal. apply (IH (String.length s)); [simpl in Hn; lia | done].
Qed.

(** The rich-mention markup never changes a description: the
    replacement it performs puts the mention back as it was. *)
Theorem mention_markup_is_noop (desc : string) (md_item : value) :
  is_dict wf_mention md_item = true ->
  mention_step (VStr desc) md_item = Ok (VStr desc).
Proof.
  intros Hwf. destruct md_item as [| | | | | |fields]; try done.
  unfold mention_step, wf_mention, optional in *. simpl in *.
  destruct (lookup_field "type" fields) as [ty|]; simpl; [|done].
  destruct (is_str "MENTION_USER" ty); [|done].
  destruct (lookup_field "value" fields) as [inner|]; simpl.
  - destruct inner as [| | | | | |inner]; try done. simpl in *.
    destruct (lookup_field "value" inner) as [[| | |u| | |]|]; try done;
      simpl; by rewrite str_replace_same.
  - by rewrite str_replace_same.
Qed.

Lemma mention_markup_is_noop_witness :
  mention_step (VStr "see @bob")
    (VDict [("type", VStr "MENTION_USER");
            ("value", VDict [("type", VStr "PLAIN_TEXT");
                             ("value", VStr "bob")])])
  = Ok (VStr "see @bob").
Proof.
  apply (mention_markup_is_noop "see @bob"). reflexivity.
Defined.

Lemma present_and_truthy_without d k :
  without k d = true -> present_and_truthy (VDict d) k = Ok false.
Proof.
  unfold without. rewrite present_and_truthy_dict.
  destruct (lookup_field k d); [|done]. by intros ->%negb_true_iff.
Qed.

(** A message without attachments, file, files and reactions (each
    absent, null or empty) is exported with its text as it is; without
    a text, the content is the empty string. *)
Theorem plain_message_unchanged (d : list (string * value)) :
  without "attachments" d = true ->
  without "file" d = true ->
  without "files" d = true ->
  without "reactions" d = true ->
  process_message_content (VDict d) =
  Ok (default (VStr EmptyString) (lookup_field "msg" d)).
Proof.
  intros Ha Hf Hfs Hr.
  unfold process_message_content, handle_attachments, handle_files,
    handle_reactions.
  rewrite (present_and_truthy_without d "attachments"),
    (present_and_truthy_without d "file"),
    (present_and_truthy_without d "files"),
    (present_and_truthy_without d "reactions") by done.
  rewrite present_and_truthy_dict. simpl.
  by destruct (lookup_field "msg" d).
Qed.

Lemma plain_message_unchanged_witness :
  process_message_content
    (VDict [("rid", VStr "R"); ("msg", VStr "hello"); ("attachments", VList []);
            ("file", VNone)])
  = Ok (default (VStr EmptyString)
          (lookup_field "msg"
             [("rid", VStr "R"); ("msg", VStr "hello");
              ("attachments", VList []); ("file", VNone)])).
Proof.
  apply (plain_message_unchanged
           [("rid", VStr "R"); ("msg", VStr "hello");
            ("attachments", VList []); ("file", VNone)]);
    reflexivity.
Defined.

Lemma append_file_line content f :
  is_dict wf_file f = true ->
  append_file (VStr content) f = Ok (VStr (add_line content (file_line f))).
Proof.
  intros Hwf. destruct f as [| | | | | |fd]; try done.
  simpl in Hwf. unfold wf_file, optional in Hwf.
  unfold append_file, newline_if_content, add_line, file_line, file_name.
  destruct content as [|c content]; simpl;
    destruct (lookup_field "name" fd) as [[| | |n| | |]|]; try done; simpl;
    by rewrite ?app_assoc'.
Qed.

Lemma file_step_line content f :
  is_dict wf_file f = true ->
  file_step (VStr content) f =
  Ok (VStr (if is_thumbnail f then content
            else add_line content (file_line f))).
Proof.
  intros Hwf. pose proof (append_file_line content f Hwf) as Happend.
  destruct f as [| | | | | |fd]; try done.
  simpl in Hwf. unfold wf_file, optional in Hwf.
  unfold file_step, is_thumbnail, file_name in *. simpl.
  destruct (lookup_field "name" fd) as [[| | |n| | |]|]; try done; simpl.
  by destruct (str_contains "thumb-" n).
Qed.

Lemma file_steps_lines fs content :
  forallb (is_dict wf_file) fs = true ->
  foldM file_step (VStr content) fs =
  Ok (VStr (fold_left add_line
              (file_line <$> List.filter (fun f => negb (is_thumbnail f)) fs)
              content)).
Proof.
  revert content. induction fs as [|f fs IH]; intros content Hwf; [done|].
  simpl in Hwf. apply andb_prop in Hwf as [Hf Hfs].
  cbn [foldM List.filter]. rewrite (file_step_line _ _ Hf).
  cbn [mbind result_bind].
  destruct (is_thumbnail f); simpl; by rewrite IH.
Qed.

(** A message with a list of files and no single file gets one line
    [[File: name]] per file whose name does not contain [thumb-], in the
    order of the list, each on a line of its own after the content so
    far; files whose name contains [thumb-] leave no trace. *)
Theorem files_listed_without_thumbnails
    (d : list (string * value)) (content : string) (fs : list value) :
  without "file" d = true ->
  lookup_field "files" d = Some (VList fs) ->
  forallb (is_dict wf_file) fs = true ->
  handle_files (VDict d) (VStr content) =
  Ok (VStr (fold_left add_line
              (file_line <$> List.filter (fun f => negb (is_thumbnail f)) fs)
              content)).
Proof.
  intros Hfile Hfiles Hwf. unfold handle_files.
  rewrite (present_and_truthy_without d "file") by done.
  cbn [mbind result_bind].
  rewrite present_and_truthy_dict, Hfiles. cbn [mbind result_bind].
  destruct fs as [|f fs]; [done|].
  cbn [truthy]. unfold getitem. rewrite Hfiles.
  cbn [mbind result_bind iter]. by apply file_steps_lines.
Qed.

Lemma files_listed_without_thumbnails_witness :
  handle_files
    (VDict [("msg", VStr "two files");
            ("files", VList [VDict [("name", VStr "thumb-x.png")];
                             VDict [("name", VStr "y.png")]])])
    (VStr "two files")
  = Ok (VStr (fold_left add_line
                (file_line <$>
                   List.filter (fun f => negb (is_thumbnail f))
                     [VDict [("name", VStr "thumb-x.png")];
                      VDict [("name", VStr "y.png")]])
                "two files")).
Proof.
  apply (files_listed_without_thumbnails
           [("msg", VStr "two files");
            ("files", VList [VDict [("name", VStr "thumb-x.png")];
                             VDict [("name", VStr "y.png")]])]);
    reflexivity.
Defined.

(** A null text is not a missing text: when the [msg] field is present
    and null and the message has a file, the extractor raises
    [TypeError] instead of returning a string. *)
Theorem null_text_with_file_raises
    (d : list (string * value)) (kv : string * value)
    (fd : list (string * value)) :
  lookup_field "msg" d = Some VNone ->
  without "attachments" d = true ->
  lookup_field "file" d = Some (VDict (kv :: fd)) ->
  wf_file (kv :: fd) = true ->
  process_message_content (VDict d) = Raise TypeError.
Proof.
  intros Hmsg Hatt Hfile Hwf.
  unfold process_message_content, handle_attachments, handle_files.
  rewrite (present_and_truthy_without d "attachments") by done.
  rewrite !present_and_truthy_dict, Hfile. simpl. rewrite Hmsg, Hfile.
  cbn [mbind result_bind]. unfold append_file. simpl.
  unfold wf_file, optional in Hwf. simpl in Hwf.
  destruct (if String.eqb "name" kv.1 then Some kv.2
            else lookup_field "name" fd) as [[| | |n| | |]|] eqn:Hn;
    destruct kv as [k v]; simpl in *; rewrite Hn in *; try done.
Qed.

Lemma null_text_with_file_raises_witness :
  process_message_content
    (VDict [("msg", VNone); ("file", VDict [("name", VStr "a.pdf")])])
  = Raise TypeError.
Proof.
  apply (null_text_with_file_raises
           [("msg", VNone); ("file", VDict [("name", VStr "a.pdf")])]
           ("name", VStr "a.pdf") []);
    reflexivity.
Defined.

(** ** Escaping and splitting, continued *)

Lemma undouble_double_quotes s : undouble (Csv.double_quotes s) = s.
Proof.
  induction s as [|c s IH]; [done|]. cbn [Csv.double_quotes].
  destruct (N.eqb_spec (N_of_ascii c) 34) as [Hc|Hc].
  - cbn [undouble]. rewrite Hc. simpl. by rewrite IH.
  - cbn [undouble]. destruct (Csv.double_quotes s) as [|b t] eqn:Hs.
    + by rewrite <- IH.
    + destruct (N.eqb_spec (N_of_ascii c) 34) as [?|_]; [done|].
      cbn [andb]. by rewrite IH.
Qed.

(** Escaping loses nothing: collapsing the doubled quotes of the
    escaped text gives the text back, so two different texts never have
    the same escaped form. *)
Theorem escape_for_csv_round_trip (text escaped : string) :
  escape_for_csv (VStr text) = Ok escaped -> undouble escaped = text.
Proof.
  intros [= <-]. fold (escaped_text text).
  by rewrite escaped_text_double_quotes, undouble_double_quotes.
Qed.

Lemma escape_for_csv_round_trip_witness :
  undouble ("hi " +:+ dquote +:+ dquote +:+ "there" +:+ dquote +:+ dquote)
  = "hi " +:+ dquote +:+ "there" +:+ dquote.
Proof.
  apply (escape_for_csv_round_trip ("hi " +:+ dquote +:+ "there" +:+ dquote)).
  reflexivity.
Defined.

Lemma length_double_quotes s :
  (String.length s <= String.length (Csv.double_quotes s)
   <= 2 * String.length s)%nat.
Proof.
  induction s as [|c s IH]; simpl; [lia|].
  destruct (N_of_ascii c =? 34)%N; simpl; lia.
Qed.

(** A text of at most half the maximum length is never split, whatever
    it holds: with the default maximum, a message of up to 2000
    characters gives a single part. *)
Theorem half_length_text_not_split (text : string) (max_length : Z) :
  2 * len text <= max_length ->
  prepare_message_for_csv (VStr text) max_length = Ok [escaped_text text].
Proof.
  intros Hlen. unfold prepare_message_for_csv.
  destruct text as [|c text]; [done|].
  cbn [truthy String.eqb negb]. simpl. fold (escaped_text (String c text)).
  pose proof (length_double_quotes (String c text)) as Hb.
  rewrite <- escaped_text_double_quotes in Hb.
  destruct (Z.leb_spec (len (escaped_text (String c text))) max_length);
    [done|]. unfold len in *. lia.
Qed.

Lemma half_length_text_not_split_witness :
  prepare_message_for_csv (VStr (str_repeat "034" 2000)) 4000
  = Ok [escaped_text (str_repeat "034" 2000)].
Proof.
  apply (half_length_text_not_split (str_repeat "034" 2000) 4000).
  vm_compute. discriminate.
Defined.

(** The split is tight: in an oversized text, every part but the last
    carries exactly [max_length] characters of the escaped text, and the
    last one carries the rest, at least one character. *)
Theorem split_segments_exact (text : string) (max_length : Z) :
  0 < max_length ->
  max_length < len (escaped_text text) ->
  exists (N : Z) (parts : list string),
    prepare_message_for_csv (VStr text) max_length = Ok parts /\
    Z.of_nat (length parts) = N /\
    forall (i : nat) (part : string),
      parts !! i = Some part ->
      exists seg,
        part = part_prefix (Z.of_nat i + 1) N +:+ seg /\
        0 < len seg /\
        len seg =
          Z.min max_length (len (escaped_text text) - Z.of_nat i * max_length).
Proof.
  intros Hm HL.
  set (N := (len (escaped_text text) + max_length - 1) / max_length).
  pose proof (ceil_div_bounds (len (escaped_text text)) max_length Hm) as HN.
  fold N in HN. assert (0 <= N) by nia.
  exists N. eexists. split; [by apply prepare_split|]. fold N.
  split.
  - rewrite length_zip_with, length_seqZ, chunks_length. lia.
  - intros i part (x & seg & -> & Hx & Hseg)%lookup_zip_with_Some.
    apply lookup_seqZ in Hx as [-> Hi].
    unfold chunks in Hseg. rewrite list_lookup_fmap in Hseg.
    destruct (seq 0 (Z.to_nat N) !! i) as [k|] eqn:Hk; [|done].
    apply lookup_seq in Hk as [-> Hk]. injection Hseg as <-.
    eexists. rewrite (Z.add_comm 1). split; [done|].
    unfold len in *. rewrite length_take, length_drop. simpl. nia.
Qed.

Lemma split_segments_exact_witness :
  exists (N : Z) (parts : list string),
    prepare_message_for_csv (VStr "hi there, everyone") 4 = Ok parts /\
    Z.of_nat (length parts) = N /\
    forall (i : nat) (part : string),
      parts !! i = Some part ->
      exists seg,
        part = part_prefix (Z.of_nat i + 1) N +:+ seg /\
        0 < len seg /\
        len seg =
          Z.min 4 (len (escaped_text "hi there, everyone") - Z.of_nat i * 4).
Proof.
  apply (split_segments_exact "hi there, everyone" 4); [lia | reflexivity].
Defined.

(** A maximum length of zero is refused: for every non-empty text the
    splitter raises [ZeroDivisionError]. *)
Theorem zero_max_length_raises (text : string) :
  text <> EmptyString ->
  prepare_message_for_csv (VStr text) 0 = Raise ZeroDivisionError.
Proof.
  intros Htext. unfold prepare_message_for_csv.
  destruct text as [|c text]; [done|].
  cbn [truthy String.eqb negb]. simpl.
  fold (escaped_text (String c text)).
  pose proof (length_double_quotes (String c text)) as Hb.
  rewrite <- escaped_text_double_quotes in Hb. simpl in Hb.
  destruct (Z.leb_spec (len (escaped_text (String c text))) 0); [|done].
  unfold len in *. lia.
Qed.

Lemma zero_max_length_raises_witness :
  prepare_message_for_csv (VStr "hello") 0 = Raise ZeroDivisionError.
Proof. apply (zero_max_length_raises "hello"). discriminate. Defined.

(** ** The CSV phase, continued *)

Lemma foldM_preserves {S B} (P : S -> Prop) (body : S -> B -> result S) :
  (forall st x st', P st -> body st x = Ok st' -> P st') ->
  forall l st st', P st -> foldM body st l = Ok st' -> P st'.
Proof.
  intros Hbody l. induction l as [|x l IH]; intros st st' Hst Hfold.
  - by injection Hfold as <-.
  - cbn [foldM] in Hfold.
    destruct (body st x) as [st1| |] eqn:Hb; try done.
    eapply IH; [|exact Hfold]. by eapply Hbody.
Qed.

Lemma write_part_inv ts ch user st part st' :
  write_part ts ch user st part = Ok st' ->
  exists file row,
    channel_files st !! ch = Some file /\
    channel_files st' = <[ch := file +:+ row]> (channel_files st) /\
    csv_files_created st' = csv_files_created st /\
    message_count st' = message_count st + 1 /\
    stats_messages_mongodb st' = stats_messages_mongodb st + 1.
Proof.
  unfold write_part, Csv.writerow.
  destruct (channel_files st !! ch) as [file|]; [|done].
  destruct (Csv.record _) as [r| |]; try done.
  cbn [mbind result_bind]. intros [= <-].
  exists file, (r +:+ CR +:+ LF). by rewrite <- !app_assoc'.
Qed.

Lemma write_part_other ts ch user st part st' c :
  write_part ts ch user st part = Ok st' -> c <> ch ->
  channel_files st' !! c = channel_files st !! c.
Proof.
  intros (file & row & _ & -> & _)%write_part_inv Hc.
  by rewrite lookup_insert_ne.
Qed.

Lemma write_parts_frame ts ch user parts st st' :
  foldM (write_part ts ch user) st parts = Ok st' ->
  csv_files_created st' = csv_files_created st /\
  (forall c, is_Some (channel_files st' !! c) <->
             is_Some (channel_files st !! c)) /\
  message_count st' - message_count st =
  stats_messages_mongodb st' - stats_messages_mongodb st.
Proof.
  apply (foldM_preserves
           (fun s =>
              csv_files_created s = csv_files_created st /\
              (forall c, is_Some (channel_files s !! c) <->
                         is_Some (channel_files st !! c)) /\
              message_count s - message_count st =
              stats_messages_mongodb s - stats_messages_mongodb st)).
  - intros s part s' (Hcreated & Hkeys & Hcount)
           (file & row & Hfile & Hfiles & Hcreated' & Hn & Hk)%write_part_inv.
    rewrite Hfiles, Hcreated', Hn, Hk. split; [done|]. split; [|lia].
    intros c. rewrite <- Hkeys. destruct (decide (c = ch)) as [->|Hc].
    + rewrite lookup_insert_eq, Hfile. by split.
    + by rewrite lookup_insert_ne.
  - split; [done|]. split; [done|lia].
Qed.

Lemma prepare_unsplit text max_length :
  len (escaped_text text) <= max_length ->
  prepare_message_for_csv (VStr text) max_length = Ok [escaped_text text].
Proof.
  intros Hlen. unfold prepare_message_for_csv.
  destruct text as [|c text]; [done|].
  cbn [truthy String.eqb negb]. simpl.
  fold (escaped_text (String c text)).
  by destruct (Z.leb_spec (len (escaped_text (String c text))) max_length);
    [|lia].
Qed.

Section CsvMoreFacts.

Variable room_map : gmap string string.
Variable username_map : gmap string value.
Variables csv_base_name csv_extension : string.

(** The file of a channel is never opened with success. *)
Lemma open_channel_inv st ch st1 :
  open_channel csv_base_name csv_extension st ch = Ok st1 ->
  st1 = st /\ is_Some (channel_files st !! ch).
Proof.
  unfold open_channel.
  destruct (channel_files st !! ch) as [file|] eqn:Hfile; [|done].
  by intros [= <-].
Qed.

Lemma csv_step_inv st msg st' :
  csv_step room_map username_map csv_base_name csv_extension st msg = Ok st' ->
  incomplete msg = Ok true /\ st' = st \/
  exists ts ch user parts,
    incomplete msg = Ok false /\
    channel_of room_map msg = Ok ch /\
    is_Some (channel_files st !! ch) /\
    foldM (write_part ts ch user) st parts = Ok st'.
Proof.
  unfold csv_step. intros Hstep.
  destruct (incomplete msg) as [[|]| |]; cbn [mbind result_bind] in Hstep;
    try done.
  - left. by injection Hstep as <-.
  - right. split_steps Hstep.
    match goal with
    | H : open_channel _ _ _ _ = Ok _ |- _ =>
        apply open_channel_inv in H as [-> ?]
    end.
    eexists _, _, _, _. repeat split; done.
Qed.

(** The text field of a message that is not split, for a channel whose
    file is open: the body of the CSV loop appends one row and counts
    it once; a text free of commas, quotes and line breaks is written as
    it is, and any other text is put between quotes with every quote of
    the text written four times: doubled by [prepare_message_for_csv],
    and doubled again by the writer. *)
Theorem unsplit_text_field_in_open_file
    (st : csv_state) (msg ts user : value) (t : Z)
    (channel file utext text : string) :
  incomplete msg = Ok false ->
  getitem msg "ts" = Ok ts ->
  timestamp_int ts = Ok t ->
  channel_of room_map msg = Ok channel ->
  username_of username_map msg = Ok user ->
  Csv.field_text user = Ok utext ->
  process_message_content msg = Ok (VStr text) ->
  len (escaped_text text) <= default_max_length ->
  channel_files st !! channel = Some file ->
  exists st',
    csv_step room_map username_map csv_base_name csv_extension st msg
      = Ok st' /\
    channel_files st' !! channel =
      Some (file +:+
            str_join ","
              [Csv.quote_field (str_of_Z t); Csv.quote_field channel;
               Csv.quote_field utext;
               if Csv.needs_quotes text
               then quoted (Csv.double_quotes (Csv.double_quotes text))
               else text]
            +:+ CR +:+ LF) /\
    message_count st' = message_count st + 1.
Proof.
  intros Hinc Hts Ht Hch Hus Hu Hcontent Hlen Hfile.
  eexists. split.
  - eapply csv_step_open; try done. by apply prepare_unsplit.
  - simpl. rewrite lookup_insert_eq. split; [|done].
    unfold rows_text, row_text. simpl.
    by rewrite app_empty_r, quote_field_escaped.
Qed.

(** The body of the CSV loop writes to the file of the message's channel
    and to no other: the file of any other channel is as it was. *)
Theorem csv_step_other_channels (st st' : csv_state) (msg : value)
    (c : string) :
  csv_step room_map username_map csv_base_name csv_extension st msg = Ok st' ->
  channel_of room_map msg <> Ok c ->
  channel_files st' !! c = channel_files st !! c.
Proof.
  intros [[_ ->]|(ts & ch & user & parts & _ & Hch & _ & Hwrite)]%csv_step_inv
         Hc; [done|].
  assert (c <> ch) as Hne by congruence.
  revert Hwrite.
  apply (foldM_preserves
           (fun s => channel_files s !! c = channel_files st !! c));
    [|done].
  intros s part s' <- Hpart. by eapply write_part_other.
Qed.

(** The body of the CSV loop gets through a message only if it passes
    the message over or the file of the message's channel is open
    already.  It creates no file: the list of created paths and the set
    of open channels are as before; and it advances the message counter
    and the statistics counter by the same number. *)
Theorem csv_step_opens_no_file (st st' : csv_state) (msg : value) :
  csv_step room_map username_map csv_base_name csv_extension st msg = Ok st' ->
  (incomplete msg = Ok true \/
   exists channel, channel_of room_map msg = Ok channel /\
                   is_Some (channel_files st !! channel)) /\
  csv_files_created st' = csv_files_created st /\
  (forall c, is_Some (channel_files st' !! c) <->
             is_Some (channel_files st !! c)) /\
  message_count st' - message_count st =
  stats_messages_mongodb st' - stats_messages_mongodb st.
Proof.
  intros [[Hinc ->]|(ts & ch & user & parts & _ & Hch & Hopen & Hwrite)]%csv_step_inv.
  - split; [by left|]. split; [done|]. split; [done|lia].
  - split; [right; by exists ch|]. by eapply write_parts_frame.
Qed.

End CsvMoreFacts.

Lemma unsplit_text_field_in_open_file_witness :
  exists st',
    csv_step {["R" := "general"]} ∅ "messages_export" ".csv"
      (one_open_file "general") quoted_message = Ok st' /\
    channel_files st' !! "general" =
      Some (header_text +:+ written_row +:+ CR +:+ LF) /\
    message_count st' = message_count (one_open_file "general") + 1.
Proof.
  apply (unsplit_text_field_in_open_file {["R" := "general"]} ∅
           "messages_export" ".csv" (one_open_file "general") quoted_message
           (VDate 1700000000000000) (VStr "bob") 1700000000
           "general" header_text "bob"
           ("hi " +:+ dquote +:+ "there" +:+ dquote));
    first [reflexivity | vm_compute; discriminate].
Defined.

Lemma csv_step_other_channels_witness :
  exists st',
    csv_step {["R" := "general"; "S" := "random"]} ∅ "messages_export" ".csv"
      two_open_files bare_message = Ok st' /\
    channel_files st' !! "random" = channel_files two_open_files !! "random".
Proof.
  eexists. split; [reflexivity|].
  apply (csv_step_other_channels {["R" := "general"; "S" := "random"]} ∅
           "messages_export" ".csv" two_open_files _ bare_message);
    [reflexivity | vm_compute; discriminate].
Defined.

Lemma csv_step_opens_no_file_witness :
  exists st',
    csv_step {["R" := "general"; "S" := "random"]} ∅ "messages_export" ".csv"
      two_open_files bare_message = Ok st' /\
    (incomplete bare_message = Ok true \/
     exists channel,
       channel_of {["R" := "general"; "S" := "random"]} bare_message
         = Ok channel /\
       is_Some (channel_files two_open_files !! channel)) /\
    csv_files_created st' = csv_files_created two_open_files /\
    (forall c, is_Some (channel_files st' !! c) <->
               is_Some (channel_files two_open_files !! c)) /\
    message_count st' - message_count two_open_files =
    stats_messages_mongodb st' - stats_messages_mongodb two_open_files.
Proof.
  eexists. split; [reflexivity|].
  apply (csv_step_opens_no_file {["R" := "general"; "S" := "random"]} ∅
           "messages_export" ".csv" two_open_files _ bare_message).
  reflexivity.
Defined.

(** ** Sorting, continued *)

Section SortByDates.

Context {A : Type} (key : A -> value) (time : A -> Z).

Local Abbreviation R := (fun a b : A => time a <= time b).

Lemma insert_by_dates x l :
  key x = VDate (time x) ->
  Forall (fun y => key y = VDate (time y)) l ->
  StronglySorted R l ->
  exists l', insert_by key x l = Ok l' /\ l' ≡ₚ x :: l /\ StronglySorted R l'.
Proof.
  intros Hx Hl Hsorted. induction l as [|y l IH].
  - exists [x]. repeat split; [done|]. repeat constructor.
  - apply Forall_cons_1 in Hl as [Hy Hl].
    apply StronglySorted_cons in Hsorted as [Hall Hsorted].
    cbn [insert_by]. rewrite Hx, Hy. cbn [lt as_int mbind result_bind].
    destruct (Z.ltb_spec (time y) (time x)) as [Hlt|Hge].
    + destruct (IH Hl Hsorted) as (l' & -> & Hperm & Hs').
      cbn [mbind result_bind]. exists (y :: l'). split; [done|]. split.
      * rewrite Hperm. apply Permutation_swap.
      * apply StronglySorted_cons. split; [|done].
        rewrite Hperm. constructor; [lia | done].
    + exists (x :: y :: l). split; [done|]. split; [done|].
      apply StronglySorted_cons. split.
      * constructor; [done|].
        eapply Forall_impl; [exact Hall|]. intros z Hz. simpl in *. lia.
      * by apply StronglySorted_cons.
Qed.

Lemma sort_by_dates l :
  Forall (fun y => key y = VDate (time y)) l ->
  exists l', sort_by key l = Ok l' /\ l' ≡ₚ l /\ StronglySorted R l'.
Proof.
  induction l as [|x l IH]; intros Hl.
  - exists []. repeat split; [done|constructor].
  - apply Forall_cons_1 in Hl as [Hx Hl].
    destruct (IH Hl) as (l1 & Hsort & Hperm & Hs).
    cbn [sort_by]. rewrite Hsort. cbn [mbind result_bind].
    destruct (insert_by_dates x l1 Hx) as (l' & Hins & Hperm' & Hs'); [|done|].
    { by rewrite Hperm. }
    exists l'. split; [done|]. split; [|done]. by rewrite Hperm', Hperm.
Qed.

End SortByDates.

Lemma ts_key_dated msg :
  dated msg = true -> ts_key msg = Ok (VDate (timestamp_of msg)).
Proof.
  unfold dated, timestamp_of, ts_key.
  destruct msg as [| | | | | |d]; try done. simpl.
  by destruct (lookup_field "ts" d) as [[| | | |us| |]|].
Qed.

Lemma ts_keys_dated l :
  forallb dated l = true ->
  mapM' ts_key l = Ok ((fun msg => VDate (timestamp_of msg)) <$> l).
Proof.
  induction l as [|msg l IH]; [done|]. simpl.
  intros [Hmsg Hl]%andb_prop. by rewrite (ts_key_dated _ Hmsg), IH.
Qed.

(** When every message of the corpus has a datetime timestamp, the
    sort succeeds and returns the same messages, each one not later than
    all the messages after it. *)
Theorem sort_messages_sorted (all_messages : list value) :
  forallb dated all_messages = true ->
  exists messages,
    sort_messages all_messages = Ok messages /\
    messages ≡ₚ all_messages /\
    StronglySorted (fun a b => timestamp_of a <= timestamp_of b) messages.
Proof.
  intros Hdated. unfold sort_messages, sorted_with_key.
  rewrite (ts_keys_dated _ Hdated). cbn [mbind result_bind].
  rewrite zip_with_fmap_l, zip_with_diag.
  destruct (sort_by_dates (fst : value * value -> value)
              (fun p => timestamp_of p.2)
              ((fun msg => (VDate (timestamp_of msg), msg)) <$> all_messages))
    as (l' & -> & Hperm & Hsorted).
  { apply Forall_fmap, Forall_forall. by intros msg _. }
  cbn [mbind result_bind]. eexists. split; [done|]. split.
  - rewrite Hperm, <- list_fmap_compose. simpl. by rewrite list_fmap_id.
  - clear Hperm. induction Hsorted as [|p l Hs IH Hall]; [constructor|].
    simpl. constructor; [done|]. by apply Forall_fmap.
Qed.

Lemma sort_messages_sorted_witness :
  exists messages,
    sort_messages [quoted_message; bare_message] = Ok messages /\
    messages ≡ₚ [quoted_message; bare_message] /\
    StronglySorted (fun a b => timestamp_of a <= timestamp_of b) messages.
Proof.
  apply (sort_messages_sorted [quoted_message; bare_message]). reflexivity.
Defined.

(** ** The JSON phase, continued *)

Section JsonMoreFacts.

Variable room_map : gmap string string.
Variables username_map email_map : gmap string value.

Lemma json_steps_records chunk json_lines json_lines' :
  foldM (json_step room_map username_map email_map) json_lines chunk
    = Ok json_lines' ->
  length json_lines' =
  (length json_lines + length (List.filter complete chunk))%nat.
Proof.
  revert json_lines. induction chunk as [|msg chunk IH];
    intros json_lines Hfold.
  - injection Hfold as <-. simpl. lia.
  - cbn [foldM] in Hfold.
    destruct (json_step _ _ _ json_lines msg) as [lines1| |] eqn:Hstep;
      try done.
    cbn [mbind result_bind] in Hfold. rewrite (IH _ Hfold).
    unfold json_step in Hstep. cbn [List.filter]. unfold complete at 2.
    destruct (incomplete msg) as [[|]| |]; cbn [mbind result_bind] in Hstep;
      try done.
    + by injection Hstep as <-.
    + split_steps Hstep. injection Hstep as <-.
      rewrite List.length_app. simpl. lia.
Qed.

(** What a round of the JSON loop does with the batch it is given: when
    it succeeds, the file of the batch holds one record per message that
    has a room, an author and a timestamp, while the count of exported
    messages advances by the size of the batch, the messages passed
    over included. *)
Theorem json_batch_counts_whole_batch
    (st st' : json_state) (chunk_start : Z) (chunk : list value) :
  json_batch room_map username_map email_map st chunk_start chunk = Ok st' ->
  processed_messages st' = processed_messages st + Z.of_nat (length chunk) /\
  exists json_lines,
    json_out_dir st' !! json_chunk_file chunk_start =
      Some (json_file_text json_lines) /\
    length json_lines = length (List.filter complete chunk).
Proof.
  unfold json_batch. intros Hbatch.
  destruct (foldM _ _ _) as [json_lines| |] eqn:Hlines;
    cbn [mbind result_bind] in Hbatch; try done.
  injection Hbatch as <-. simpl. split; [done|].
  exists json_lines. rewrite lookup_insert_eq. split; [done|].
  by rewrite (json_steps_records _ _ _ Hlines).
Qed.

End JsonMoreFacts.

Lemma json_batch_counts_whole_batch_witness :
  exists st',
    json_batch {["R" := "general"]} ∅ ∅ json_start 0
      [quoted_message; roomless_message] = Ok st' /\
    processed_messages st' =
      processed_messages json_start +
      Z.of_nat (length [quoted_message; roomless_message]) /\
    exists json_lines,
      json_out_dir st' !! json_chunk_file 0 =
        Some (json_file_text json_lines) /\
      length json_lines =
        length (List.filter complete [quoted_message; roomless_message]).
Proof.
  eexists. split; [reflexivity|].
  apply (json_batch_counts_whole_batch {["R" := "general"]} ∅ ∅ json_start _ 0
           [quoted_message; roomless_message]).
  reflexivity.
Defined.

Section JsonLines.

Variable room_map : gmap string string.
Variables username_map email_map : gmap string value.

(** When a batch is converted without error, it yields one JSON record
    per message that has a room, an author and a timestamp, added after
    the records already there; the other messages yield none. *)
Theorem json_lines_one_per_complete_message
    (chunk : list value) (json_lines json_lines' : list string) :
  foldM (json_step room_map username_map email_map) json_lines chunk
    = Ok json_lines' ->
  exists new,
    json_lines' = json_lines ++ new /\
    length new = length (List.filter complete chunk).
Proof.
  revert json_lines. induction chunk as [|msg chunk IH];
    intros json_lines Hfold.
  - injection Hfold as <-. exists []. by rewrite app_nil_r.
  - cbn [foldM] in Hfold.
    destruct (json_step _ _ _ json_lines msg) as [lines1| |] eqn:Hstep;
      try done.
    cbn [mbind result_bind] in Hfold.
    destruct (IH _ Hfold) as (new & -> & Hlen).
    unfold json_step in Hstep. cbn [List.filter]. unfold complete at 1.
    destruct (incomplete msg) as [[|]| |]; cbn [mbind result_bind] in Hstep;
      try done.
    + injection Hstep as <-. by exists new.
    + split_steps Hstep. injection Hstep as <-.
      eexists (_ :: new). rewrite <- app_assoc. split; [done|].
      simpl. by rewrite Hlen.
Qed.

End JsonLines.

Lemma json_lines_one_per_complete_message_witness :
  exists new,
    [quoted_message_json] = [] ++ new /\
    length new = length (List.filter complete [roomless_message; quoted_message]).
Proof.
  apply (json_lines_one_per_complete_message {["R" := "general"]} ∅ ∅
           [roomless_message; quoted_message] [] [quoted_message_json]).
  reflexivity.
Defined.
